(** * k3s App Builder: deployment pipeline and environment lifecycle

    A shallow embedding of [builder/build_ops.py], [builder/k8s_ops.py] and
    the routes of [builder/main.py], with the properties of the deployment
    pipeline, the promotion/rollback controller and the workspace
    synchroniser stated and proved over it.

    Conventions of the embedding.
    - Python dictionaries are [gmap]s with string keys; a registry entry is
      a dictionary of JSON values.
    - Every external program ([git], [docker], [kubectl]) is run through
      [subprocess]; the embedding records each invocation in the host's
      process log and takes the completed process (exit status, output)
      from a [world], a function of the invocation.  Local [git] commands
      (init, add, diff, commit, reset) additionally act on a model of the
      work tree, the index and the history.
    - Routes are computations in a state-and-exception monad over the
      [host]: the registry file, the work trees, the bare repositories, the
      template directories and the process log. *)

From Stdlib Require Import ZArith Ascii String List.
From stdpp Require Import gmap strings list fin_maps pretty.

Local Open Scope string_scope.
Local Open Scope Z_scope.

(** ** Python values *)

(** The JSON values that occur in the registry and in route responses. *)
Inductive jval :=
  | JNull
  | JBool (b : bool)
  | JStr (s : string).

#[global] Instance jval_eq_dec : EqDecision jval.
Proof. solve_decision. Defined.

(** Python truthiness: [None], [False] and the empty string are false. *)
Definition truthy (v : jval) : bool :=
  match v with
  | JNull => false
  | JBool b => b
  | JStr s => negb (String.eqb s "")
  end.

(** [str(v)], as an f-string formats a value. *)
Definition py_str (v : jval) : string :=
  match v with
  | JNull => "None"
  | JBool true => "True"
  | JBool false => "False"
  | JStr s => s
  end.

(** [d.get(k)]: the value under [k], or [None]. *)
Definition get (d : gmap string jval) (k : string) : jval :=
  default JNull (d !! k).

Definition nl : string := String (ascii_of_nat 10) "".

(** ** Exceptions *)

Inductive exn :=
  | HTTPException (status_code : Z) (detail : string)
  | RuntimeError (msg : string)
  | ValueError (msg : string)
  | BuildError (msg : string)
  | CalledProcessError (code : Z) (cmd : list string)
  | KeyError (key : string).

#[global] Instance exn_eq_dec : EqDecision exn.
Proof. solve_decision. Defined.

(** [repr] of a list of strings, exact for strings without quotes,
    backslashes and control characters. *)
Definition repr_list (l : list string) : string :=
  "[" +:+ String.concat ", " (map (λ s, "'" +:+ s +:+ "'") l) +:+ "]".

(** [str(e)]; for [CalledProcessError] the text of a positive exit status. *)
Definition str_exn (e : exn) : string :=
  match e with
  | HTTPException c d => pretty c +:+ ": " +:+ d
  | RuntimeError m | ValueError m | BuildError m => m
  | CalledProcessError c cmd =>
      "Command '" +:+ repr_list cmd +:+ "' returned non-zero exit status "
      +:+ pretty c +:+ "."
  | KeyError k => "'" +:+ k +:+ "'"
  end.

(** ** The host *)

(** One [subprocess] invocation: the argument vector and the text fed to
    standard input. *)
Record process := { argv : list string; input : option string }.

(** What the invocation returned: exit status, the lines of standard
    output, standard error. *)
Record CompletedProcess :=
  { returncode : Z; stdout : list string; stderr : string }.

(** The outcome of every external program during one operation. *)
Definition world := process → CompletedProcess.

Record commit := { message : string; tree : gmap string string }.

(** A work tree: the files on disk (by relative path), the index and the
    history of the checked-out branch (newest first); its [origin] is the
    bare repository of the same application. *)
Record worktree :=
  { files : gmap string string;
    index : gmap string string;
    history : list commit }.

Record host :=
  { registry_file : option (gmap string (gmap string jval));
    workspaces : gmap string worktree;
    bare_repos : gmap string (list commit);
    template_dirs : gmap string (gmap string string);
    processes : list process }.

Definition set_registry_file (r : option (gmap string (gmap string jval)))
    (h : host) : host :=
  {| registry_file := r; workspaces := workspaces h;
     bare_repos := bare_repos h; template_dirs := template_dirs h;
     processes := processes h |}.

Definition set_workspaces (ws : gmap string worktree) (h : host) : host :=
  {| registry_file := registry_file h; workspaces := ws;
     bare_repos := bare_repos h; template_dirs := template_dirs h;
     processes := processes h |}.

Definition set_bare_repos (rs : gmap string (list commit)) (h : host) : host :=
  {| registry_file := registry_file h; workspaces := workspaces h;
     bare_repos := rs; template_dirs := template_dirs h;
     processes := processes h |}.

Definition log_process (p : process) (h : host) : host :=
  {| registry_file := registry_file h; workspaces := workspaces h;
     bare_repos := bare_repos h; template_dirs := template_dirs h;
     processes := processes h ++ [p] |}.

(** ** The monad of routes: state over the host, with exceptions *)

Definition M (A : Type) : Type := host → (exn + A) * host.

#[global] Instance M_ret : MRet M := λ A a h, (inr a, h).

#[global] Instance M_bind : MBind M := λ A B k m h,
  match m h with
  | (inl e, h') => (inl e, h')
  | (inr a, h') => k a h'
  end.

Definition raise {A} (e : exn) : M A := λ h, (inl e, h).

Definition get_host : M host := λ h, (inr h, h).

Definition modify_host (f : host → host) : M unit := λ h, (inr tt, f h).

(** ** Generators and worker threads: the same, with an output

    [G O A] is a computation that, besides acting on the host, produces
    values of [O] in order: the lines a generator yields, the items a
    worker puts on its queue, the events a stream sends. *)

Definition G (O A : Type) : Type := host → (exn + A) * host * list O.

#[global] Instance G_ret {O} : MRet (G O) := λ A a h, (inr a, h, []).

#[global] Instance G_bind {O} : MBind (G O) := λ A B k m h,
  match m h with
  | (inl e, h', out) => (inl e, h', out)
  | (inr a, h', out) =>
      let '(r, h'', out') := k a h' in (r, h'', (out ++ out')%list)
  end.

Definition lift {O A} (m : M A) : G O A := λ h, (m h, []).

Definition emit {O} (o : O) : G O unit := λ h, (inr tt, h, [o]).

Definition emit_all {O} (os : list O) : G O unit := λ h, (inr tt, h, os).

Definition raiseG {O A} (e : exn) : G O A := λ h, (inl e, h, []).

(** [for x in g: out(f x)]: the loop body only hands each value on. *)
Definition relay {O O' A} (f : O → O') (g : G O A) : G O' A :=
  λ h, let '(r, h', out) := g h in (r, h', map f out).

(** [try: body  except Exception as e: handler(e)]. *)
Definition try_except {O A} (body : G O A) (handler : exn → G O A) : G O A :=
  λ h,
    match body h with
    | (inl e, h', out) =>
        let '(r, h'', out') := handler e h' in (r, h'', (out ++ out')%list)
    | ok => ok
    end.

(** Run a worker to its end and take what it put on the queue. *)
Definition join {O A} (worker : G O A) : M (list O) :=
  λ h, let '(_, h', out) := worker h in (inr out, h').

(** Environment variables read at import time, and the Jinja renderer of
    the manifests under [k8s/templates], which the routes use as a function
    of the template name and the context. *)
Record config :=
  { SERVER_IP : string;
    REGISTRY_HOST : string;
    GIT_BASE : string;
    _render : string → list (string * string) → string }.

Section Builder.

Context (cfg : config).

(** The outcome of the external programs during the operation at hand. *)
Context (w : world).

(** [subprocess.run]/[subprocess.Popen] of a program whose effect lies
    outside the host: the invocation is logged, the result comes from the
    world. *)
Definition subprocess_run (p : process) : M CompletedProcess :=
  λ h, (inr (w p), log_process p h).

(** ** k8s_ops.py *)

Definition kubectl_proc (args : list string) (input_text : option string)
    : process :=
  {| argv := "kubectl" :: args; input := input_text |}.

Definition kubectl_failed (args : list string) (result : CompletedProcess)
    : exn :=
  RuntimeError ("kubectl " +:+ String.concat " " args
                +:+ " failed:" +:+ nl +:+ stderr result).

Definition _kubectl (args : list string) (input_text : option string)
    (check : bool) : M CompletedProcess :=
  result ← subprocess_run (kubectl_proc args input_text);
  if check && negb (returncode result =? 0)
  then raise (kubectl_failed args result)
  else mret result.

Definition deployment_yaml (app_name env version : string) : string :=
  _render cfg "deployment.yaml.j2"
    [("app_name", app_name); ("env", env); ("version", version);
     ("registry_host", REGISTRY_HOST cfg); ("server_ip", SERVER_IP cfg)].

Definition deploy_app (app_name env version : string) : M unit :=
  let yaml := deployment_yaml app_name env version in
  _kubectl ["apply"; "-f"; "-"] (Some yaml) true ;; mret tt.

Definition set_image_args (app_name env version : string) : list string :=
  let image := REGISTRY_HOST cfg +:+ "/" +:+ app_name +:+ ":" +:+ version in
  ["set"; "image"; "deployment/" +:+ app_name +:+ "-" +:+ env;
   "app=" +:+ image; "-n"; "app-" +:+ app_name].

Definition set_image (app_name env version : string) : M unit :=
  _kubectl (set_image_args app_name env version) None true ;; mret tt.

Definition rollout_status_args (app_name env : string) (timeout : Z)
    : list string :=
  ["rollout"; "status"; "deployment/" +:+ app_name +:+ "-" +:+ env;
   "-n"; "app-" +:+ app_name; "--timeout=" +:+ pretty timeout +:+ "s"].

Definition rollout_status (app_name env : string) (timeout : Z) : M bool :=
  result ← _kubectl (rollout_status_args app_name env timeout) None false;
  mret (returncode result =? 0).

Definition rollout_undo_args (app_name env : string) : list string :=
  ["rollout"; "undo"; "deployment/" +:+ app_name +:+ "-" +:+ env;
   "-n"; "app-" +:+ app_name].

Definition rollout_undo (app_name env : string) : M unit :=
  _kubectl (rollout_undo_args app_name env) None true ;; mret tt.

Definition create_namespace (app_name : string) : M unit :=
  let apply template :=
    _kubectl ["apply"; "-f"; "-"]
      (Some (_render cfg template [("app_name", app_name)])) true in
  apply "namespace.yaml.j2" ;; apply "quota.yaml.j2" ;;
  apply "networkpolicy.yaml.j2" ;; mret tt.

Definition delete_namespace (app_name : string) : M unit :=
  _kubectl ["delete"; "namespace"; "app-" +:+ app_name;
            "--ignore-not-found=true"] None true ;; mret tt.

Definition create_env_configmap (app_name : string)
    (env_vars : list (string * string)) : M unit :=
  let literals :=
    map (λ kv, "--from-literal=" +:+ kv.1 +:+ "=" +:+ kv.2) env_vars in
  result ← _kubectl (["create"; "configmap"; app_name +:+ "-env";
                      "-n"; "app-" +:+ app_name; "--save-config";
                      "--dry-run=client"; "-o"; "yaml"] ++ literals) None true;
  _kubectl ["apply"; "-f"; "-"] (Some (String.concat "" (stdout result))) true ;;
  mret tt.

Definition rb_yaml (app_name : string) : string :=
  String.concat nl
    [""; "apiVersion: rbac.authorization.k8s.io/v1"; "kind: RoleBinding";
     "metadata:"; "  name: builder-controller-binding";
     "  namespace: app-" +:+ app_name; "subjects:";
     "- kind: ServiceAccount"; "  name: builder-controller";
     "  namespace: builder-system"; "roleRef:"; "  kind: ClusterRole";
     "  name: builder-app-manager";
     "  apiGroup: rbac.authorization.k8s.io"; ""].

Definition grant_builder_access (app_name : string) : M unit :=
  _kubectl ["apply"; "-f"; "-"] (Some (rb_yaml app_name)) true ;; mret tt.

(** ** build_ops.py *)

(** A UTC wall-clock reading. *)
Record datetime :=
  { year : N; month : N; day : N; hour : N; minute : N; second : N;
    microsecond : N }.

(** Decimal, zero-padded on the left to [width] characters. *)
Definition zfill (width : nat) (n : N) : string :=
  let s := pretty n in
  String.concat "" (replicate (width - String.length s) "0") +:+ s.

(** [strftime("%Y%m%d.%H%M%S")] of the reading (years of four digits). *)
Definition make_version (now : datetime) : string :=
  zfill 4 (year now) +:+ zfill 2 (month now) +:+ zfill 2 (day now) +:+ "."
  +:+ zfill 2 (hour now) +:+ zfill 2 (minute now) +:+ zfill 2 (second now).

Definition workspace_path (app_name : string) : string :=
  GIT_BASE cfg +:+ "/" +:+ app_name +:+ "-workspace".

Definition repo_path (app_name : string) : string :=
  GIT_BASE cfg +:+ "/" +:+ app_name +:+ ".git".

(** The components of a path. *)
Fixpoint split (sep : ascii) (s : string) : list string :=
  match s with
  | EmptyString => [""]
  | String c s' =>
      if Ascii.eqb c sep then "" :: split sep s'
      else match split sep s' with
           | [] => [String c ""]
           | p :: ps => String c p :: ps
           end
  end.

Definition parts (path : string) : list string :=
  split (ascii_of_nat 47) path.

(** [".git" in parts]. *)
Definition in_git_dir (path : string) : bool :=
  bool_decide (".git" ∈ parts path).

(** The tree of the tip of the checked-out branch; empty before the first
    commit. *)
Definition head_tree (wt : worktree) : gmap string string :=
  match history wt with
  | c :: _ => tree c
  | [] => ∅
  end.

Definition empty_worktree : worktree :=
  {| files := ∅; index := ∅; history := [] |}.

Definition git_proc (args : list string) : process :=
  {| argv := "git" :: args; input := None |}.

(** Run a local [git] command: log it, let [sem] act on the host and give
    the exit status, raise [CalledProcessError] under [check=True]. *)
Definition git_local (args : list string) (check : bool)
    (sem : host → Z * host) : M Z :=
  λ h,
    let '(rc, h') := sem (log_process (git_proc args) h) in
    if check && negb (rc =? 0)
    then (inl (CalledProcessError rc ("git" :: args)), h')
    else (inr rc, h').

(** Run a [git] command that talks to the remote: the exit status is the
    world's, [effect] happens on success. *)
Definition git_remote (args : list string) (check : bool)
    (effect : host → host) : M Z :=
  result ← subprocess_run (git_proc args);
  if returncode result =? 0
  then modify_host effect ;; mret 0
  else if check
       then raise (CalledProcessError (returncode result) ("git" :: args))
       else mret (returncode result).

(** A command inside the work tree at [workspace]; status 128 when there
    is none. *)
Definition in_worktree (workspace : string) (f : worktree → Z * worktree)
    (h : host) : Z * host :=
  match workspaces h !! workspace with
  | None => (128, h)
  | Some wt =>
      let '(rc, wt') := f wt in
      (rc, set_workspaces (<[workspace := wt']> (workspaces h)) h)
  end.

Definition git_init (workspace : string) : M Z :=
  git_local ["-C"; workspace; "init"; "-b"; "main"] true
    (in_worktree workspace (λ wt, (0, wt))).

Definition git_remote_add (workspace repo : string) : M Z :=
  git_local ["-C"; workspace; "remote"; "add"; "origin"; repo] true
    (in_worktree workspace (λ wt, (0, wt))).

(** [git add .]: the index becomes the files on disk outside [.git].  This
    is git without ignore or attribute rules; the statements about what
    gets staged are made for work trees that hold no such rule
    ([valid_files] below). *)
Definition stage (fs : gmap string string) : gmap string string :=
  filter (λ kv, in_git_dir kv.1 = false) fs.

Definition git_add_all (workspace : string) : M Z :=
  git_local ["-C"; workspace; "add"; "."] true
    (in_worktree workspace (λ wt,
       (0, {| files := files wt; index := stage (files wt);
              history := history wt |}))).

(** [git diff --cached --quiet]: status 1 when the index differs from the
    tip, 0 otherwise. *)
Definition git_diff_cached_quiet (workspace : string) : M Z :=
  git_local ["-C"; workspace; "diff"; "--cached"; "--quiet"] false
    (in_worktree workspace (λ wt,
       (if bool_decide (index wt = head_tree wt) then 0 else 1, wt))).

(** [git commit -m]: a new tip holding the index; status 1 when there is
    nothing to commit. *)
Definition git_commit (workspace message : string) : M Z :=
  git_local ["-C"; workspace; "commit"; "-m"; message] true
    (in_worktree workspace (λ wt,
       if bool_decide (index wt = head_tree wt) then (1, wt)
       else (0, {| files := files wt; index := index wt;
                   history := {| message := message; tree := index wt |}
                              :: history wt |}))).

(** [git push -u origin main]: when the remote accepts, its history is the
    work tree's. *)
Definition git_push (workspace repo : string) : M Z :=
  git_remote ["-C"; workspace; "push"; "-u"; "origin"; "main"] true
    (λ h, match workspaces h !! workspace with
          | None => h
          | Some wt => set_bare_repos (<[repo := history wt]> (bare_repos h)) h
          end).

Definition git_fetch (workspace : string) : M Z :=
  git_remote ["-C"; workspace; "fetch"; "origin"] true (λ h, h).

(** [git reset --hard origin/main]: branch, index and tracked files become
    the remote tip; untracked files stay.  Status 128 when the remote has
    no [main]. *)
Definition git_reset_hard (workspace repo : string) : M Z :=
  git_local ["-C"; workspace; "reset"; "--hard"; "origin/main"] true
    (λ h, match bare_repos h !! repo with
          | Some (c :: cs) =>
              in_worktree workspace (λ wt,
                (0, {| files := tree c ∪ filter (λ kv, index wt !! kv.1 = None)
                                               (files wt);
                       index := tree c;
                       history := c :: cs |})) h
          | _ => (128, h)
          end).

Definition mkdir (workspace : string) : M unit :=
  modify_host (λ h,
    set_workspaces (<[workspace := empty_worktree]> (workspaces h)) h).

Definition rmtree (workspace : string) : M unit :=
  modify_host (λ h, set_workspaces (delete workspace (workspaces h)) h).

(** Write each file of the dictionary under the work tree.  The name is
    taken as the path below the work tree, which it is when it is a
    [plain_path]; pathlib reads other names differently ([./app.py] is
    [app.py], an absolute name leaves the work tree), and the loop raises
    when a name meets a directory.  The statements about the files written
    are made for [valid_files]. *)
Definition write_all (new old : gmap string string) : gmap string string :=
  map_fold (λ filename content fs, <[filename := content]> fs) old new.

Definition write_texts (workspace : string) (new : gmap string string)
    : M unit :=
  modify_host (λ h,
    match workspaces h !! workspace with
    | None => h
    | Some wt =>
        let wt' := {| files := write_all new (files wt);
                      index := index wt; history := history wt |} in
        set_workspaces (<[workspace := wt']> (workspaces h)) h
    end).

Definition init_git_repo (app_name : string) : M unit :=
  let repo := repo_path app_name in
  git_local ["init"; "--bare"; repo] true
    (λ h, (0, set_bare_repos
                (<[repo := default [] (bare_repos h !! repo)]> (bare_repos h))
                h)) ;;
  mret tt.

Definition scaffold_app (app_name template : string) : M unit :=
  let workspace := workspace_path app_name in
  let repo := repo_path app_name in
  h ← get_host;
  match template_dirs h !! template with
  | None => raise (ValueError ("Unknown template: " +:+ template))
  | Some template_dir =>
      (if bool_decide (is_Some (workspaces h !! workspace))
       then rmtree workspace else mret tt) ;;
      mkdir workspace ;;
      git_init workspace ;;
      git_remote_add workspace repo ;;
      write_texts workspace template_dir ;;
      git_add_all workspace ;;
      git_commit workspace
        ("Scaffold " +:+ template +:+ " for " +:+ app_name) ;;
      git_push workspace repo ;;
      mret tt
  end.

Definition write_files_to_workspace (app_name : string)
    (new : gmap string string) : M unit :=
  let workspace := workspace_path app_name in
  h ← get_host;
  if bool_decide (is_Some (workspaces h !! workspace))
  then
    write_texts workspace new ;;
    git_add_all workspace ;;
    rc ← git_diff_cached_quiet workspace;
    if negb (rc =? 0)
    then
      git_commit workspace "Update: Claude-generated code" ;;
      git_push workspace (repo_path app_name) ;;
      mret tt
    else mret tt
  else raise (RuntimeError ("Workspace not found: " +:+ workspace)).

Definition checkout_workspace (app_name : string) : M unit :=
  let workspace := workspace_path app_name in
  let repo := repo_path app_name in
  h ← get_host;
  (if bool_decide (is_Some (workspaces h !! workspace))
   then mret tt
   else mkdir workspace ;; git_init workspace ;;
        git_remote_add workspace repo ;; mret tt) ;;
  git_fetch workspace ;;
  git_reset_hard workspace repo ;;
  mret tt.

(** Both directories are removed when they exist; a missing one is passed
    over. *)
Definition delete_git_repo (app_name : string) : M unit :=
  modify_host (λ h,
    set_workspaces (delete (workspace_path app_name) (workspaces h))
      (set_bare_repos (delete (repo_path app_name) (bare_repos h)) h)).

Definition carriage_return : ascii := ascii_of_nat 13.

Definition line_feed : ascii := ascii_of_nat 10.

(** [read_text] opens the file in text mode: the line endings [\r\n] and
    [\r] are read as [\n]. *)
Fixpoint universal_newlines (s : string) : string :=
  match s with
  | EmptyString => EmptyString
  | String c s' =>
      if Ascii.eqb c carriage_return
      then match s' with
           | String c' s'' =>
               if Ascii.eqb c' line_feed
               then String line_feed (universal_newlines s'')
               else String line_feed (universal_newlines s')
           | EmptyString => String line_feed EmptyString
           end
      else String c (universal_newlines s')
  end.

(** The files of the work tree outside any [.git] directory, each as
    [read_text] gives it; the empty dictionary when there is no work
    tree. *)
Definition get_workspace_files (app_name : string) : M (gmap string string) :=
  let workspace := workspace_path app_name in
  h ← get_host;
  match workspaces h !! workspace with
  | None => mret ∅
  | Some wt =>
      mret (universal_newlines <$>
            filter (λ kv, in_git_dir (workspace +:+ "/" +:+ kv.1) = false)
                   (files wt))
  end.

(** ** main.py: registry helpers *)

Definition _load_registry : M (gmap string (gmap string jval)) :=
  h ← get_host; mret (default ∅ (registry_file h)).

Definition _save_registry (data : gmap string (gmap string jval)) : M unit :=
  modify_host (set_registry_file (Some data)).

Definition _get_app (name : string) : M (gmap string jval) :=
  reg ← _load_registry;
  match reg !! name with
  | None => raise (HTTPException 404 ("App '" +:+ name +:+ "' not found"))
  | Some e => mret e
  end.

Definition _app_url (app_name env : string) : string :=
  let suffix := if String.eqb env "preview" then "-preview" else "" in
  "http://" +:+ app_name +:+ suffix +:+ "." +:+ SERVER_IP cfg +:+ ".nip.io/".

(** [registry[name][key] = v] on the dictionary just loaded. *)
Definition setitem (name key : string) (v : jval)
    (reg : gmap string (gmap string jval))
    : M (gmap string (gmap string jval)) :=
  match reg !! name with
  | None => raise (KeyError name)
  | Some e => mret (<[name := <[key := v]> e]> reg)
  end.

Inductive response :=
  | JSONResponse (content : list (string * jval))
  | RedirectResponse (url : string) (status_code : Z).

(** ** main.py: promotion and rollback *)

Definition publish_app (name : string) : M response :=
  registry ← _load_registry;
  app_entry ← _get_app name;
  let preview_version := get app_entry "preview_version" in
  if negb (truthy preview_version)
  then raise (HTTPException 400 "No preview build to publish")
  else
    let current_prod := get app_entry "prod_version" in
    deploy_app name "prod" (py_str preview_version) ;;
    ok ← rollout_status name "prod" 90;
    if negb ok
    then
      (if truthy current_prod
       then set_image name "prod" (py_str current_prod)
       else mret tt) ;;
      raise (HTTPException 500 "Prod rollout failed, reverted")
    else
      registry ← setitem name "prod_version" preview_version registry;
      registry ← setitem name "rollback_version" current_prod registry;
      registry ← setitem name "status" (JStr "published") registry;
      _save_registry registry ;;
      mret (JSONResponse [("ok", JBool true); ("version", preview_version);
                          ("prod_url", JStr (_app_url name "prod"))]).

Definition rollback_app (name : string) : M response :=
  app_entry ← _get_app name;
  let rollback_version := get app_entry "rollback_version" in
  ok ← (if truthy rollback_version
        then set_image name "prod" (py_str rollback_version) ;;
             rollout_status name "prod" 90
        else rollout_undo name "prod" ;;
             rollout_status name "prod" 90);
  registry ← _load_registry;
  (if ok && truthy rollback_version
   then
     registry ← setitem name "prod_version" rollback_version registry;
     registry ← setitem name "rollback_version" JNull registry;
     _save_registry registry
   else mret tt) ;;
  mret (JSONResponse [("ok", JBool ok)]).

(** ** build_ops.py: docker build and push *)

Definition docker_build_args (app_name image workspace : string)
    : list string :=
  ["docker"; "build"; "--build-arg"; "APP_NAME=" +:+ app_name;
   "-t"; image; workspace].

Definition docker_push_args (image : string) : list string :=
  ["docker"; "push"; image].

Definition image_tag (app_name version : string) : string :=
  REGISTRY_HOST cfg +:+ "/" +:+ app_name +:+ ":" +:+ version.

Definition docker_build_proc (app_name version : string) : process :=
  {| argv := docker_build_args app_name (image_tag app_name version)
               (workspace_path app_name);
     input := None |}.

Definition docker_push_proc (app_name version : string) : process :=
  {| argv := docker_push_args (image_tag app_name version); input := None |}.

Definition build_failed (phase : string) (proc : CompletedProcess) : exn :=
  BuildError ("docker " +:+ phase +:+ " failed (exit "
              +:+ pretty (returncode proc) +:+ ")").

Definition build_and_push (app_name version : string) : G string unit :=
  let workspace := workspace_path app_name in
  let image := image_tag app_name version in
  lift (checkout_workspace app_name) ;;
  emit ("=== Building " +:+ image +:+ " ===" +:+ nl) ;;
  proc ← lift (subprocess_run (docker_build_proc app_name version));
  emit_all (stdout proc) ;;
  if negb (returncode proc =? 0)
  then raiseG (build_failed "build" proc)
  else
    emit ("=== Pushing " +:+ image +:+ " ===" +:+ nl) ;;
    push_proc ← lift (subprocess_run (docker_push_proc app_name version));
    emit_all (stdout push_proc) ;;
    if negb (returncode push_proc =? 0)
    then raiseG (build_failed "push" push_proc)
    else emit ("=== Build complete: " +:+ image +:+ " ===" +:+ nl).

(** ** main.py: creation and teardown *)

Definition VALID_TEMPLATES : list string :=
  ["static-site"; "simple-api"; "webhook"; "scheduled-job"].

Definition code (c : ascii) : nat := nat_of_ascii c.

(** The character classes below are Python's on ASCII text ([is_ascii]);
    outside it Python also counts letters, digits and spaces of other
    scripts. *)
Definition is_ascii (s : string) : bool :=
  forallb (λ c, (code c <? 128)%nat) (list_ascii_of_string s).

Definition is_space (c : ascii) : bool :=
  ((code c =? 32) || ((9 <=? code c) && (code c <=? 13))
   || ((28 <=? code c) && (code c <=? 31)))%nat.

Definition is_upper (c : ascii) : bool :=
  ((65 <=? code c) && (code c <=? 90))%nat.

Definition is_alpha (c : ascii) : bool :=
  (is_upper c || ((97 <=? code c) && (code c <=? 122)))%nat.

Definition is_digit (c : ascii) : bool :=
  ((48 <=? code c) && (code c <=? 57))%nat.

Definition isalnum (c : ascii) : bool := is_alpha c || is_digit c.

Fixpoint lstrip (l : list ascii) : list ascii :=
  match l with
  | c :: l' => if is_space c then lstrip l' else l
  | [] => []
  end.

Definition strip (s : string) : string :=
  string_of_list_ascii
    (rev (lstrip (rev (lstrip (list_ascii_of_string s))))).

Definition lower (s : string) : string :=
  string_of_list_ascii
    (map (λ c, if is_upper c then ascii_of_nat (code c + 32) else c)
         (list_ascii_of_string s)).

(** [s.replace(" ", "-")]. *)
Definition replace_spaces (s : string) : string :=
  string_of_list_ascii
    (map (λ c, if (code c =? 32)%nat then ascii_of_nat 45 else c)
         (list_ascii_of_string s)).

Definition isidentifier (s : string) : bool :=
  match list_ascii_of_string s with
  | [] => false
  | c :: l =>
      (is_alpha c || (code c =? 95)%nat)
      && forallb (λ c, isalnum c || (code c =? 95)%nat) l
  end.

(** [datetime.isoformat()] of a UTC reading. *)
Definition isoformat (now : datetime) : string :=
  zfill 4 (year now) +:+ "-" +:+ zfill 2 (month now) +:+ "-"
  +:+ zfill 2 (day now) +:+ "T" +:+ zfill 2 (hour now) +:+ ":"
  +:+ zfill 2 (minute now) +:+ ":" +:+ zfill 2 (second now)
  +:+ (if (microsecond now =? 0)%N then ""
       else "." +:+ zfill 6 (microsecond now))
  +:+ "+00:00".

(** The route on names and texts of ASCII characters. *)
Definition create_app (app_name template description : string)
    (now : datetime) : M response :=
  let app_name := replace_spaces (lower (strip app_name)) in
  if negb (isidentifier app_name)
     && negb (forallb (λ c, isalnum c || (code c =? 45)%nat)
                      (list_ascii_of_string app_name))
  then raise (HTTPException 400 "Invalid app name")
  else if negb (bool_decide (template ∈ VALID_TEMPLATES))
  then raise (HTTPException 400 "Invalid template")
  else
    registry ← _load_registry;
    if bool_decide (is_Some (registry !! app_name))
    then raise (HTTPException 409
                  ("App '" +:+ app_name +:+ "' already exists"))
    else
      create_namespace app_name ;;
      grant_builder_access app_name ;;
      create_env_configmap app_name [("APP_NAME", app_name)] ;;
      init_git_repo app_name ;;
      scaffold_app app_name template ;;
      _save_registry
        (<[app_name :=
             list_to_map
               [("app_name", JStr app_name);
                ("template", JStr template);
                ("description", JStr description);
                ("git_repo", JStr ("/var/git/apps/" +:+ app_name +:+ ".git"));
                ("preview_version", JNull);
                ("prod_version", JNull);
                ("preview_url", JStr (_app_url app_name "preview"));
                ("prod_url", JStr (_app_url app_name "prod"));
                ("created_at", JStr (isoformat now));
                ("status", JStr "created")]]> registry) ;;
      mret (RedirectResponse ("/app/" +:+ app_name) 303).

Definition delete_app (name : string) : M response :=
  _get_app name ;;
  delete_namespace name ;;
  delete_git_repo name ;;
  registry ← _load_registry;
  match registry !! name with
  | None => raise (KeyError name)
  | Some _ =>
      _save_registry (delete name registry) ;;
      mret (JSONResponse [("ok", JBool true)])
  end.

(** ** main.py: the build route *)

(** What the worker puts on the queue: [("log", line)], [("done", version)],
    [("error", message)]. *)
Inductive item :=
  | ILog (line : string)
  | IDone (version : string)
  | IError (message : string).

(** What the stream sends, one [data:] frame each: [{"log": ...}],
    [{"done": true, "version": ..., "preview_url": ...}], [{"error": ...}]. *)
Inductive event :=
  | LogEvent (line : string)
  | DoneEvent (version preview_url : string)
  | ErrorEvent (message : string).

Definition run_build (name version : string) : G item unit :=
  try_except
    (relay ILog (build_and_push name version) ;;
     emit (ILog ("=== Deploying to preview ===" +:+ nl)) ;;
     lift (deploy_app name "preview" version) ;;
     ok ← lift (rollout_status name "preview" 90);
     if ok : bool then emit (IDone version)
     else emit (IError "Rollout timed out"))
    (λ e, emit (IError (str_exn e))).

(** The consumer loop over the items as they arrive; [true] when the loop
    was left by [break], [false] when it waits on a queue that stays
    empty. *)
Fixpoint event_loop (name : string) (queue : list item) : G event bool :=
  match queue with
  | [] => mret false
  | ILog data :: queue' =>
      emit (LogEvent data) ;; event_loop name queue'
  | IDone data :: _ =>
      registry ← lift _load_registry;
      registry ← lift (setitem name "preview_version" (JStr data) registry);
      registry ← lift (setitem name "status" (JStr "preview") registry);
      lift (_save_registry registry) ;;
      emit (DoneEvent data (_app_url name "preview")) ;;
      mret true
  | IError data :: _ =>
      emit (ErrorEvent data) ;; mret true
  end.

Definition event_stream (name version : string) : G event bool :=
  queue ← lift (join (run_build name version));
  event_loop name queue.

Definition build_app (name : string) (now : datetime) : G event bool :=
  lift (_get_app name) ;;
  let version := make_version now in
  event_stream name version.

End Builder.

(** * Vocabulary of the statements *)

(** The registry as [_load_registry] reads it. *)
Definition registry_of (h : host) : gmap string (gmap string jval) :=
  default ∅ (registry_file h).

(** The processes run between two hosts. *)
Definition new_processes (h h' : host) : list process :=
  drop (length (processes h)) (processes h').

(** The [kubectl apply] of the deployment manifest. *)
Definition deploy_proc (cfg : config) (app_name env version : string)
    : process :=
  kubectl_proc ["apply"; "-f"; "-"]
    (Some (deployment_yaml cfg app_name env version)).

Definition set_image_proc (cfg : config) (app_name env version : string)
    : process :=
  kubectl_proc (set_image_args cfg app_name env version) None.

Definition rollout_status_proc (app_name env : string) : process :=
  kubectl_proc (rollout_status_args app_name env 90) None.

Definition rollout_undo_proc (app_name env : string) : process :=
  kubectl_proc (rollout_undo_args app_name env) None.

(** Exit status zero. *)
Definition succeeds (w : world) (p : process) : bool :=
  returncode (w p) =? 0.

(** The errors of the promotion controller. *)
Definition NothingToPromote : exn :=
  HTTPException 400 "No preview build to publish".

Definition PromotionFailed : exn :=
  HTTPException 500 "Prod rollout failed, reverted".

Definition NotFound (name : string) : exn :=
  HTTPException 404 ("App '" +:+ name +:+ "' not found").

(** The entry a successful promotion writes. *)
Definition promoted (e : gmap string jval) : gmap string jval :=
  <["status" := JStr "published"]>
    (<["rollback_version" := get e "prod_version"]>
       (<["prod_version" := get e "preview_version"]> e)).

(** The entry a successful rollback to the retained version writes. *)
Definition rolled_back (e : gmap string jval) : gmap string jval :=
  <["rollback_version" := JNull]>
    (<["prod_version" := get e "rollback_version"]> e).

(** The entry a successful build writes. *)
Definition built (version : string) (e : gmap string jval)
    : gmap string jval :=
  <["status" := JStr "preview"]> (<["preview_version" := JStr version]> e).

Definition is_git (p : process) : Prop := head (argv p) = Some "git".

(** A computation that never writes the registry and runs only processes
    satisfying [P]. *)
Definition runs_only (P : process → Prop) {A} (m : M A) : Prop :=
  ∀ h, registry_file (m h).2 = registry_file h
       ∧ ∃ l, processes (m h).2 = (processes h ++ l)%list ∧ Forall P l.

Definition terminal (ev : event) : Prop :=
  match ev with
  | LogEvent _ => False
  | DoneEvent _ _ | ErrorEvent _ => True
  end.



(** The work tree [scaffold_app] leaves: the template's files, staged, and
    one commit holding them (none when the template stages nothing). *)
Definition scaffolded (app_name template : string)
    (template_dir : gmap string string) : worktree :=
  {| files := template_dir; index := stage template_dir;
     history :=
       if bool_decide (stage template_dir = ∅) then []
       else [{| message := "Scaffold " +:+ template +:+ " for " +:+ app_name;
                tree := stage template_dir |}] |}.

Definition push_args (cfg : config) (app_name : string) : list string :=
  ["-C"; workspace_path cfg app_name; "push"; "-u"; "origin"; "main"].

Definition scaffold_commit_args (cfg : config) (app_name template : string)
    : list string :=
  ["-C"; workspace_path cfg app_name; "commit"; "-m";
   "Scaffold " +:+ template +:+ " for " +:+ app_name].

(** How [scaffold_app] ends for a template that exists. *)
Definition scaffold_outcome (cfg : config) (w : world)
    (app_name template : string) (template_dir : gmap string string)
    : exn + unit :=
  if bool_decide (stage template_dir = ∅)
  then inl (CalledProcessError 1
              ("git" :: scaffold_commit_args cfg app_name template))
  else if succeeds w (git_proc (push_args cfg app_name)) then inr tt
  else inl (CalledProcessError
              (returncode (w (git_proc (push_args cfg app_name))))
              ("git" :: push_args cfg app_name)).

(** The operations on an application. *)
Inductive op :=
  | Create (app_name template description : string) (now : datetime)
  | Build (name : string) (now : datetime)
  | Publish (name : string)
  | Rollback (name : string)
  | Delete (name : string).

(** The host after the route has run in world [w]. *)
Definition run_op (cfg : config) (w : world) (o : op) (h : host) : host :=
  match o with
  | Create app_name template description now =>
      (create_app cfg w app_name template description now h).2
  | Build name now => (build_app cfg w name now h).1.2
  | Publish name => (publish_app cfg w name h).2
  | Rollback name => (rollback_app cfg w name h).2
  | Delete name => (delete_app cfg w name h).2
  end.

(** Hosts reached from one without a registry file by any operations, each
    in a world of its own. *)
Inductive reachable (cfg : config) : host → Prop :=
  | reachable_init h : registry_file h = None → reachable cfg h
  | reachable_step h w o :
      reachable cfg h → reachable cfg (run_op cfg w o h).

(** A version field holds [None] or a non-empty string. *)
Definition version_ok (v : jval) : Prop :=
  v = JNull ∨ ∃ s, v = JStr s ∧ s ≠ "".

Definition versions_ok (e : gmap string jval) : Prop :=
  version_ok (get e "preview_version")
  ∧ version_ok (get e "prod_version")
  ∧ version_ok (get e "rollback_version").

(** A production or rollback version is only held by an entry whose
    status is [preview] or [published]. *)
Definition status_ok (e : gmap string jval) : Prop :=
  get e "prod_version" ≠ JNull ∨ get e "rollback_version" ≠ JNull →
  get e "status" = JStr "preview" ∨ get e "status" = JStr "published".

Definition entry_ok (e : gmap string jval) : Prop :=
  versions_ok e ∧ status_ok e.

(** The entry [create_app] writes. *)
Definition created (cfg : config) (app_name template description : string)
    (now : datetime) : gmap string jval :=
  list_to_map
    [("app_name", JStr app_name);
     ("template", JStr template);
     ("description", JStr description);
     ("git_repo", JStr ("/var/git/apps/" +:+ app_name +:+ ".git"));
     ("preview_version", JNull);
     ("prod_version", JNull);
     ("preview_url", JStr (_app_url cfg app_name "preview"));
     ("prod_url", JStr (_app_url cfg app_name "prod"));
     ("created_at", JStr (isoformat now));
     ("status", JStr "created")].

(** What one operation may do to the registry. *)
Inductive registry_step (cfg : config)
    (r : gmap string (gmap string jval))
    : gmap string (gmap string jval) → Prop :=
  | step_none : registry_step cfg r r
  | step_created name template description now :
      r !! name = None →
      registry_step cfg r
        (<[name := created cfg name template description now]> r)
  | step_built name now e :
      r !! name = Some e →
      registry_step cfg r (<[name := built (make_version now) e]> r)
  | step_promoted name e :
      r !! name = Some e →
      truthy (get e "preview_version") = true →
      registry_step cfg r (<[name := promoted e]> r)
  | step_rolled_back name e :
      r !! name = Some e →
      truthy (get e "rollback_version") = true →
      registry_step cfg r (<[name := rolled_back e]> r)
  | step_deleted name :
      registry_step cfg r (delete name r).

(** A computation that leaves the registry as it was or ends with one
    satisfying [R]. *)
Definition ends_in (R : gmap string (gmap string jval) → Prop) {A}
    (m : M A) : Prop :=
  ∀ h, registry_of (m h).2 = registry_of h ∨ R (registry_of (m h).2).

#[global] Instance process_eq_dec : EqDecision process.
Proof. solve_decision. Defined.

Definition demo_config : config :=
  {| SERVER_IP := "127.0.0.1"; REGISTRY_HOST := "localhost:5050";
     GIT_BASE := "/var/git/apps";
     _render := λ template ctx,
       template +:+ ":" +:+ String.concat "," (map snd ctx) |}.

Definition exit_with (rc : Z) : CompletedProcess :=
  {| returncode := rc; stdout := ["step" +:+ nl]; stderr := "refused" |}.

(** Every program exits with status zero. *)
Definition all_succeed : world := λ _, exit_with 0.

(** Every program exits with status zero, except [p], which exits with 1. *)
Definition only_fails (p : process) : world :=
  λ q, if bool_decide (q = p) then exit_with 1 else exit_with 0.

(** Every program exits with status zero, except [p] and [q]. *)
Definition both_fail (p q : process) : world :=
  λ r, if bool_decide (r = p) || bool_decide (r = q)
       then exit_with 1 else exit_with 0.

Definition new_year : datetime :=
  {| year := 2026; month := 1; day := 1; hour := 0; minute := 0;
     second := 0; microsecond := 0 |}.

Definition one_hour_later : datetime :=
  {| year := 2026; month := 1; day := 1; hour := 1; minute := 0;
     second := 0; microsecond := 0 |}.

(** A host with the [simple-api] template and nothing else. *)
Definition fresh_host : host :=
  {| registry_file := None; workspaces := ∅; bare_repos := ∅;
     template_dirs := {[ "simple-api" := {[ "app.py" := "print(1)" ]} ]};
     processes := [] |}.

Definition demo_created : host :=
  run_op demo_config all_succeed
    (Create "demo" "simple-api" "a demo" new_year) fresh_host.

Definition demo_built : host :=
  run_op demo_config all_succeed (Build "demo" new_year) demo_created.

Definition demo_published : host :=
  run_op demo_config all_succeed (Publish "demo") demo_built.

Definition demo_rebuilt : host :=
  run_op demo_config all_succeed (Build "demo" one_hour_later) demo_published.

Definition demo_republished : host :=
  run_op demo_config all_succeed (Publish "demo") demo_rebuilt.

(** A field of an application's registry entry. *)
Definition field (h : host) (name key : string) : jval :=
  get (default ∅ (registry_of h !! name)) key.

(** A host on which a work tree directory for [demo] is left over, with a
    stray file, while the bare repository has no history yet. *)
Definition stale_host : host :=
  {| registry_file := None;
     workspaces :=
       {[ "/var/git/apps/demo-workspace" :=
            {| files := {[ "old.txt" := "stale" ]}; index := ∅;
               history := [] |} ]};
     bare_repos := {[ "/var/git/apps/demo.git" := [] ]};
     template_dirs := {[ "simple-api" := {[ "app.py" := "print(1)" ]} ]};
     processes := [] |}.

(** The versions of an entry were set in order: a production version
    presupposes a preview version, a rollback version a production
    version. *)
Definition chain_ok (e : gmap string jval) : Prop :=
  (get e "prod_version" ≠ JNull → get e "preview_version" ≠ JNull)
  ∧ (get e "rollback_version" ≠ JNull → get e "prod_version" ≠ JNull).

(** A computation that leaves the registry file alone whenever it
    raises. *)
Definition raises_clean {A} (m : M A) : Prop :=
  ∀ h e h', m h = (inl e, h') → registry_file h' = registry_file h.

(** The name [create_app] registers the application under. *)
Definition normalised (app_name : string) : string :=
  replace_spaces (lower (strip app_name)).

(** The names [create_app] lets through. *)
Definition valid_name (name : string) : bool :=
  isidentifier name
  || forallb (λ c, isalnum c || (code c =? 45)%nat) (list_ascii_of_string name).










Definition push_proc (cfg : config) (app_name : string) : process :=
  git_proc (push_args cfg app_name).



(** The work tree [checkout_workspace] leaves when the remote tip is
    [c :: cs]: the tip's files, with the untracked files of the old work
    tree kept. *)
Definition synchronised (c : commit) (cs : list commit) (wt : worktree)
    : worktree :=
  {| files := tree c ∪ filter (λ kv, index wt !! kv.1 = None) (files wt);
     index := tree c;
     history := c :: cs |}.

(** The work tree a path of the host holds, an empty one when the
    directory is missing. *)
Definition worktree_at (cfg : config) (app_name : string) (h : host)
    : worktree :=
  default empty_worktree (workspaces h !! workspace_path cfg app_name).

Definition fetch_proc (cfg : config) (app_name : string) : process :=
  git_proc ["-C"; workspace_path cfg app_name; "fetch"; "origin"].

Definition reset_args (cfg : config) (app_name : string) : list string :=
  ["-C"; workspace_path cfg app_name; "reset"; "--hard"; "origin/main"].

(** How [checkout_workspace] ends. *)
Definition checkout_outcome (cfg : config) (w : world) (app_name : string)
    (h : host) : exn + unit :=
  if succeeds w (fetch_proc cfg app_name)
  then match bare_repos h !! repo_path cfg app_name with
       | Some (c :: cs) => inr tt
       | _ => inl (CalledProcessError 128 ("git" :: reset_args cfg app_name))
       end
  else inl (CalledProcessError (returncode (w (fetch_proc cfg app_name)))
              (argv (fetch_proc cfg app_name))).

#[global] Instance commit_eq_dec : EqDecision commit.
Proof. solve_decision. Defined.

#[global] Instance worktree_eq_dec : EqDecision worktree.
Proof. solve_decision. Defined.

#[global] Instance host_eq_dec : EqDecision host.
Proof. solve_decision. Defined.

#[global] Instance response_eq_dec : EqDecision response.
Proof. solve_decision. Defined.

#[global] Instance event_eq_dec : EqDecision event.
Proof. solve_decision. Defined.

(** * Running the primitives *)

Section Run.

Context (cfg : config) (w : world).

Lemma bind_run {A B} (m : M A) (k : A → M B) (h : host) :
  (m ≫= k) h =
  match m h with
  | (inl e, h') => (inl e, h')
  | (inr a, h') => k a h'
  end.
Proof. reflexivity. Qed.

Lemma kubectl_run args inp check h :
  _kubectl w args inp check h =
  (if check && negb (succeeds w (kubectl_proc args inp))
   then inl (kubectl_failed args (w (kubectl_proc args inp)))
   else inr (w (kubectl_proc args inp)),
   log_process (kubectl_proc args inp) h).
Proof.
  unfold _kubectl, succeeds. rewrite bind_run. unfold subprocess_run.
  destruct (check && _); reflexivity.
Qed.

Lemma deploy_app_run name env version h :
  deploy_app cfg w name env version h =
  (if succeeds w (deploy_proc cfg name env version) then inr tt
   else inl (kubectl_failed ["apply"; "-f"; "-"]
               (w (deploy_proc cfg name env version))),
   log_process (deploy_proc cfg name env version) h).
Proof.
  unfold deploy_app. rewrite bind_run, kubectl_run. fold (deploy_proc cfg name env version).
  destruct (succeeds _ _); reflexivity.
Qed.

Lemma set_image_run name env version h :
  set_image cfg w name env version h =
  (if succeeds w (set_image_proc cfg name env version) then inr tt
   else inl (kubectl_failed (set_image_args cfg name env version)
               (w (set_image_proc cfg name env version))),
   log_process (set_image_proc cfg name env version) h).
Proof.
  unfold set_image. rewrite bind_run, kubectl_run.
  fold (set_image_proc cfg name env version).
  destruct (succeeds _ _); reflexivity.
Qed.

Lemma rollout_undo_run name env h :
  rollout_undo w name env h =
  (if succeeds w (rollout_undo_proc name env) then inr tt
   else inl (kubectl_failed (rollout_undo_args name env)
               (w (rollout_undo_proc name env))),
   log_process (rollout_undo_proc name env) h).
Proof.
  unfold rollout_undo. rewrite bind_run, kubectl_run.
  fold (rollout_undo_proc name env).
  destruct (succeeds _ _); reflexivity.
Qed.

Lemma rollout_status_run name env h :
  rollout_status w name env 90 h =
  (inr (succeeds w (rollout_status_proc name env)),
   log_process (rollout_status_proc name env) h).
Proof.
  unfold rollout_status. rewrite bind_run, kubectl_run. reflexivity.
Qed.

Lemma load_registry_run h : _load_registry h = (inr (registry_of h), h).
Proof. reflexivity. Qed.

Lemma get_app_run name h :
  _get_app name h =
  match registry_of h !! name with
  | None => (inl (NotFound name), h)
  | Some e => (inr e, h)
  end.
Proof.
  unfold _get_app. rewrite bind_run, load_registry_run.
  destruct (registry_of h !! name); reflexivity.
Qed.

Lemma setitem_run name key v reg e h :
  reg !! name = Some e →
  setitem name key v reg h = (inr (<[name := <[key := v]> e]> reg), h).
Proof. intros H. unfold setitem. rewrite H. reflexivity. Qed.

End Run.

(** * The promotion/rollback controller *)

Section Controller.

Context (cfg : config) (w : world).

(** [publish_app], path by path. *)
Lemma publish_app_run name h :
  publish_app cfg w name h =
  match registry_of h !! name with
  | None => (inl (NotFound name), h)
  | Some e =>
      let preview := get e "preview_version" in
      let current := get e "prod_version" in
      let deploy := deploy_proc cfg name "prod" (py_str preview) in
      let revert := set_image_proc cfg name "prod" (py_str current) in
      let h1 := log_process deploy h in
      let h2 := log_process (rollout_status_proc name "prod") h1 in
      if negb (truthy preview) then (inl NothingToPromote, h)
      else if negb (succeeds w deploy)
      then (inl (kubectl_failed ["apply"; "-f"; "-"] (w deploy)), h1)
      else if succeeds w (rollout_status_proc name "prod")
      then (inr (JSONResponse
                   [("ok", JBool true); ("version", preview);
                    ("prod_url", JStr (_app_url cfg name "prod"))]),
            set_registry_file
              (Some (<[name := promoted e]> (registry_of h))) h2)
      else if truthy current
      then (inl (if succeeds w revert then PromotionFailed
                 else kubectl_failed
                        (set_image_args cfg name "prod" (py_str current))
                        (w revert)),
            log_process revert h2)
      else (inl PromotionFailed, h2)
  end.
Proof.
  unfold publish_app.
  rewrite bind_run, load_registry_run, bind_run, get_app_run.
  destruct (registry_of h !! name) as [e|] eqn:He; [|reflexivity].
  cbv zeta.
  destruct (truthy (get e "preview_version")); [|reflexivity].
  cbn [negb]. cbv iota.
  rewrite bind_run, deploy_app_run.
  destruct (succeeds w (deploy_proc _ _ _ _)); [|reflexivity].
  cbn [negb]. cbv iota.
  rewrite bind_run, rollout_status_run.
  destruct (succeeds w (rollout_status_proc _ _)).
  - cbn [negb]. cbv iota.
    rewrite bind_run, (setitem_run _ _ _ _ e) by done.
    rewrite bind_run, (setitem_run _ _ _ _ _) by apply lookup_insert_eq.
    rewrite bind_run, (setitem_run _ _ _ _ _) by apply lookup_insert_eq.
    rewrite !insert_insert_eq. reflexivity.
  - cbn [negb]. cbv iota. rewrite bind_run.
    destruct (truthy (get e "prod_version")); [|reflexivity].
    rewrite set_image_run.
    destruct (succeeds w (set_image_proc _ _ _ _)); reflexivity.
Qed.

(** [rollback_app], path by path. *)
Lemma rollback_app_run name h :
  rollback_app cfg w name h =
  match registry_of h !! name with
  | None => (inl (NotFound name), h)
  | Some e =>
      let target := get e "rollback_version" in
      let apply := if truthy target
                   then set_image_proc cfg name "prod" (py_str target)
                   else rollout_undo_proc name "prod" in
      let args := if truthy target
                  then set_image_args cfg name "prod" (py_str target)
                  else rollout_undo_args name "prod" in
      let h1 := log_process apply h in
      let h2 := log_process (rollout_status_proc name "prod") h1 in
      let ok := succeeds w (rollout_status_proc name "prod") in
      if negb (succeeds w apply)
      then (inl (kubectl_failed args (w apply)), h1)
      else (inr (JSONResponse [("ok", JBool ok)]),
            if ok && truthy target
            then set_registry_file
                   (Some (<[name := rolled_back e]> (registry_of h))) h2
            else h2)
  end.
Proof.
  unfold rollback_app.
  rewrite bind_run, get_app_run.
  destruct (registry_of h !! name) as [e|] eqn:He; [|reflexivity].
  cbv zeta. rewrite bind_run.
  destruct (truthy (get e "rollback_version")) eqn:Ht.
  - rewrite bind_run, set_image_run.
    destruct (succeeds w (set_image_proc _ _ _ _)); [|reflexivity].
    cbn [negb]. cbv iota.
    rewrite rollout_status_run, bind_run, load_registry_run, bind_run.
    destruct (succeeds w (rollout_status_proc _ _)); [|reflexivity].
    cbn [andb]. cbv iota.
    rewrite bind_run, (setitem_run _ _ _ _ e) by done.
    rewrite bind_run, (setitem_run _ _ _ _ _) by apply lookup_insert_eq.
    rewrite insert_insert_eq. reflexivity.
  - rewrite bind_run, rollout_undo_run.
    destruct (succeeds w (rollout_undo_proc _ _)); [|reflexivity].
    cbn [negb]. cbv iota.
    rewrite rollout_status_run, bind_run, load_registry_run, bind_run.
    rewrite andb_false_r. reflexivity.
Qed.

End Controller.

(** * What the git operations leave alone *)

Section Frame.

Context (cfg : config) (w : world).

Lemma runs_only_ret P {A} (a : A) : runs_only P (mret a).
Proof. intros h. split; [done|]. exists []. by rewrite app_nil_r. Qed.

Lemma runs_only_raise P {A} (e : exn) : runs_only P (@raise A e).
Proof. intros h. split; [done|]. exists []. by rewrite app_nil_r. Qed.

Lemma runs_only_bind P {A B} (m : M A) (k : A → M B) :
  runs_only P m → (∀ a, runs_only P (k a)) → runs_only P (m ≫= k).
Proof.
  intros Hm Hk h. rewrite bind_run.
  destruct (Hm h) as [Hr (l & Hl & HP)].
  destruct (m h) as [[e|a] h1]; simpl in *; [by eauto|].
  destruct (Hk a h1) as [Hr' (l' & Hl' & HP')].
  split; [congruence|].
  exists (l ++ l')%list. rewrite Hl', Hl, app_assoc.
  split; [done|]. by apply Forall_app.
Qed.

Lemma runs_only_get_host P (k : host → M unit) :
  (∀ h, runs_only P (k h)) → runs_only P (get_host ≫= k).
Proof. intros Hk h. rewrite bind_run. apply Hk. Qed.

Lemma runs_only_modify P (f : host → host) :
  (∀ h, registry_file (f h) = registry_file h) →
  (∀ h, processes (f h) = processes h) →
  runs_only P (modify_host f).
Proof.
  intros Hr Hp h. split; [apply Hr|]. exists []. simpl.
  by rewrite Hp, app_nil_r.
Qed.

Lemma in_worktree_frame workspace f h :
  registry_file (in_worktree workspace f h).2 = registry_file h
  ∧ processes (in_worktree workspace f h).2 = processes h.
Proof.
  unfold in_worktree. destruct (workspaces h !! workspace); [|done].
  by destruct (f _).
Qed.

Lemma runs_only_git_local args check sem :
  (∀ h, registry_file (sem h).2 = registry_file h
        ∧ processes (sem h).2 = processes h) →
  runs_only is_git (git_local args check sem).
Proof.
  intros Hsem h. unfold git_local.
  destruct (Hsem (log_process (git_proc args) h)) as [Hr Hp].
  destruct (sem _) as [rc h']. simpl in *.
  assert (Hgoal : registry_file h' = registry_file h
                  ∧ ∃ l, processes h' = (processes h ++ l)%list
                         ∧ Forall is_git l).
  { split; [done|]. eexists. split; [exact Hp|].
    by apply Forall_singleton. }
  by destruct (check && _).
Qed.

Lemma runs_only_git_remote args check effect :
  (∀ h, registry_file (effect h) = registry_file h) →
  (∀ h, processes (effect h) = processes h) →
  runs_only is_git (git_remote w args check effect).
Proof.
  intros Hr Hp h. unfold git_remote. rewrite bind_run. unfold subprocess_run.
  assert (Hl : Forall is_git [git_proc args]) by by apply Forall_singleton.
  destruct (returncode _ =? 0).
  - rewrite bind_run. simpl. rewrite Hr, Hp. eauto.
  - destruct check; simpl; eauto.
Qed.

Lemma runs_only_git_init workspace :
  runs_only is_git (git_init workspace).
Proof. apply runs_only_git_local. intros h. apply in_worktree_frame. Qed.

Lemma runs_only_git_remote_add workspace repo :
  runs_only is_git (git_remote_add workspace repo).
Proof. apply runs_only_git_local. intros h. apply in_worktree_frame. Qed.

Lemma runs_only_git_add_all workspace :
  runs_only is_git (git_add_all workspace).
Proof. apply runs_only_git_local. intros h. apply in_worktree_frame. Qed.

Lemma runs_only_git_diff_cached_quiet workspace :
  runs_only is_git (git_diff_cached_quiet workspace).
Proof. apply runs_only_git_local. intros h. apply in_worktree_frame. Qed.

Lemma runs_only_git_commit workspace message :
  runs_only is_git (git_commit workspace message).
Proof. apply runs_only_git_local. intros h. apply in_worktree_frame. Qed.

Lemma runs_only_git_reset_hard workspace repo :
  runs_only is_git (git_reset_hard workspace repo).
Proof.
  apply runs_only_git_local. intros h.
  destruct (bare_repos h !! repo) as [[|c cs]|]; [done| |done].
  apply in_worktree_frame.
Qed.

Lemma runs_only_git_push workspace repo :
  runs_only is_git (git_push w workspace repo).
Proof.
  apply runs_only_git_remote; intros h;
    by destruct (workspaces h !! workspace).
Qed.

Lemma runs_only_git_fetch workspace :
  runs_only is_git (git_fetch w workspace).
Proof. by apply runs_only_git_remote. Qed.

Lemma runs_only_mkdir P workspace : runs_only P (mkdir workspace).
Proof. by apply runs_only_modify. Qed.

Lemma runs_only_rmtree P workspace : runs_only P (rmtree workspace).
Proof. by apply runs_only_modify. Qed.

Lemma runs_only_write_texts P workspace new :
  runs_only P (write_texts workspace new).
Proof.
  apply runs_only_modify; intros h; by destruct (workspaces h !! workspace).
Qed.

Lemma runs_only_delete_git_repo P app_name :
  runs_only P (delete_git_repo cfg app_name).
Proof. by apply runs_only_modify. Qed.

Lemma runs_only_init_git_repo app_name :
  runs_only is_git (init_git_repo cfg app_name).
Proof.
  apply runs_only_bind; [|intros ?; apply runs_only_ret].
  by apply runs_only_git_local.
Qed.

Lemma runs_only_kubectl args inp check :
  runs_only (λ _, True) (_kubectl w args inp check).
Proof.
  intros h. rewrite kubectl_run. cbn [snd]. split; [done|].
  eexists [_]. split; [reflexivity|]. by apply Forall_singleton.
Qed.

Lemma runs_only_weaken (P Q : process → Prop) {A} (m : M A) :
  (∀ p, P p → Q p) → runs_only P m → runs_only Q m.
Proof.
  intros HPQ Hm h. destruct (Hm h) as [Hr (l & Hl & HP)].
  split; [done|]. exists l. split; [done|].
  eapply Forall_impl; eauto.
Qed.

Lemma runs_only_registry {P A} (m : M A) h :
  runs_only P m → registry_of (m h).2 = registry_of h.
Proof. intros Hm. unfold registry_of. by destruct (Hm h) as [-> _]. Qed.

End Frame.

Create HintDb frame.

#[global] Hint Resolve runs_only_ret runs_only_raise runs_only_git_init
  runs_only_git_remote_add runs_only_git_add_all
  runs_only_git_diff_cached_quiet runs_only_git_commit
  runs_only_git_reset_hard runs_only_git_push runs_only_git_fetch
  runs_only_mkdir runs_only_rmtree runs_only_write_texts
  runs_only_delete_git_repo runs_only_init_git_repo runs_only_kubectl
  : frame.

(** Decompose a sequence of steps and close each with the lemmas above. *)
Ltac frame :=
  repeat lazymatch goal with
    | |- runs_only _ (mbind _ get_host) =>
        apply runs_only_get_host; intros ?
    | |- runs_only _ (mbind _ _) => apply runs_only_bind; [|intros ?]
    | |- runs_only _ _ => first [solve [auto with frame] | case_match]
    end.

Section FrameRoutes.

Context (cfg : config) (w : world).

Lemma runs_only_checkout_workspace app_name :
  runs_only is_git (checkout_workspace cfg w app_name).
Proof. unfold checkout_workspace. cbv zeta. frame. Qed.

Lemma runs_only_scaffold_app app_name template :
  runs_only is_git (scaffold_app cfg w app_name template).
Proof. unfold scaffold_app. cbv zeta. frame. Qed.

Lemma runs_only_create_namespace app_name :
  runs_only (λ _, True) (create_namespace cfg w app_name).
Proof. unfold create_namespace. cbv zeta. frame. Qed.

Lemma runs_only_grant_builder_access app_name :
  runs_only (λ _, True) (grant_builder_access w app_name).
Proof. unfold grant_builder_access. frame. Qed.

Lemma runs_only_create_env_configmap app_name env_vars :
  runs_only (λ _, True) (create_env_configmap w app_name env_vars).
Proof. unfold create_env_configmap. cbv zeta. frame. Qed.

Lemma runs_only_delete_namespace app_name :
  runs_only (λ _, True) (delete_namespace w app_name).
Proof. unfold delete_namespace. frame. Qed.

End FrameRoutes.


(** * The pipeline runner and its event stream *)

Ltac list_norm :=
  repeat (progress (cbn [app]; rewrite <- ?app_assoc, ?app_nil_r));
  reflexivity.

(** A closed decidable statement is settled by evaluating its decision
    procedure. *)
Ltac by_compute :=
  match goal with
  | |- ?P => apply (@bool_decide_eq_true_1 P _)
  end;
  vm_compute; reflexivity.


Section Pipeline.

Context (cfg : config) (w : world).

Lemma bindG_run {O A B} (m : G O A) (k : A → G O B) (h : host) :
  (m ≫= k) h =
  match m h with
  | (inl e, h', out) => (inl e, h', out)
  | (inr a, h', out) =>
      let '(r, h'', out') := k a h' in (r, h'', (out ++ out')%list)
  end.
Proof. reflexivity. Qed.

(** [build_and_push], path by path: the lines yielded and how it ends. *)
Lemma build_and_push_run name version h :
  build_and_push cfg w name version h =
  match checkout_workspace cfg w name h with
  | (inl e, h1) => (inl e, h1, [])
  | (inr _, h1) =>
      let image := image_tag cfg name version in
      let build := docker_build_proc cfg name version in
      let push := docker_push_proc cfg name version in
      let h2 := log_process build h1 in
      let h3 := log_process push h2 in
      let out1 :=
        ("=== Building " +:+ image +:+ " ===" +:+ nl) :: stdout (w build) in
      let out2 :=
        (out1 ++ ("=== Pushing " +:+ image +:+ " ===" +:+ nl)
              :: stdout (w push))%list in
      if negb (succeeds w build)
      then (inl (build_failed "build" (w build)), h2, out1)
      else if negb (succeeds w push)
      then (inl (build_failed "push" (w push)), h3, out2)
      else (inr tt, h3,
            (out2 ++ ["=== Build complete: " +:+ image +:+ " ===" +:+ nl])%list)
  end.
Proof.
  unfold build_and_push, succeeds, mbind, G_bind, lift, emit, emit_all,
    raiseG, subprocess_run.
  cbv zeta.
  destruct (checkout_workspace cfg w name h) as [[e|[]] h1]; [reflexivity|].
  cbv beta iota.
  destruct (returncode (w (docker_build_proc cfg name version)) =? 0);
    cbn [negb]; cbv beta iota.
  - destruct (returncode (w (docker_push_proc cfg name version)) =? 0);
      cbn [negb]; cbv beta iota.
    + list_norm.
    + list_norm.
  - list_norm.
Qed.

(** [run_build], path by path: the items put on the queue. *)
Lemma run_build_run name version h :
  run_build cfg w name version h =
  match build_and_push cfg w name version h with
  | (inl e, h1, out) =>
      (inr tt, h1, (map ILog out ++ [IError (str_exn e)])%list)
  | (inr _, h1, out) =>
      let deploy := deploy_proc cfg name "preview" version in
      let rollout := rollout_status_proc name "preview" in
      let items :=
        (map ILog out ++ [ILog ("=== Deploying to preview ===" +:+ nl)])%list in
      let h2 := log_process deploy h1 in
      if negb (succeeds w deploy)
      then (inr tt, h2,
            (items ++ [IError (str_exn (kubectl_failed ["apply"; "-f"; "-"]
                                          (w deploy)))])%list)
      else (inr tt, log_process rollout h2,
            (items ++ [if succeeds w rollout then IDone version
                       else IError "Rollout timed out"])%list)
  end.
Proof.
  unfold run_build, try_except, mbind, G_bind, relay, lift, emit.
  destruct (build_and_push cfg w name version h) as [[[e|[]] h1] out].
  - list_norm.
  - cbv beta iota zeta. rewrite deploy_app_run.
    destruct (succeeds w (deploy_proc cfg name "preview" version));
      cbn [negb]; cbv beta iota.
    + rewrite rollout_status_run. cbv beta iota.
      destruct (succeeds w (rollout_status_proc name "preview")); list_norm.
    + list_norm.
Qed.

(** The consumer hands every log item on, in order. *)
Lemma event_loop_logs name lines rest h :
  event_loop cfg name (map ILog lines ++ rest)%list h =
  let '(r, h', out) := event_loop cfg name rest h in
  (r, h', (map LogEvent lines ++ out)%list).
Proof.
  induction lines as [|line lines IH]; cbn [map app].
  - by destruct (event_loop cfg name rest h) as [[r h'] out].
  - cbn [event_loop]. rewrite bindG_run. unfold emit at 1. rewrite IH.
    by destruct (event_loop cfg name rest h) as [[r h'] out].
Qed.

Lemma event_loop_error name message queue h :
  event_loop cfg name (IError message :: queue) h =
  (inr true, h, [ErrorEvent message]).
Proof. reflexivity. Qed.

Lemma event_loop_done name version queue h e :
  registry_of h !! name = Some e →
  event_loop cfg name (IDone version :: queue) h =
  (inr true,
   set_registry_file (Some (<[name := built version e]> (registry_of h))) h,
   [DoneEvent version (_app_url cfg name "preview")]).
Proof.
  intros He. cbn [event_loop].
  unfold mbind, G_bind, lift. rewrite load_registry_run.
  rewrite (setitem_run _ _ _ _ e) by done.
  rewrite (setitem_run _ _ _ _ _) by apply lookup_insert_eq.
  rewrite insert_insert_eq. reflexivity.
Qed.

Lemma build_app_run name now h :
  build_app cfg w name now h =
  match registry_of h !! name with
  | None => (inl (NotFound name), h, [])
  | Some _ =>
      let '(_, h1, queue) := run_build cfg w name (make_version now) h in
      event_loop cfg name queue h1
  end.
Proof.
  unfold build_app, event_stream, join, mbind, G_bind, lift.
  rewrite get_app_run.
  destruct (registry_of h !! name); [|reflexivity].
  destruct (run_build cfg w name (make_version now) h) as [[r h1] queue].
  by destruct (event_loop cfg name queue h1) as [[r' h'] out].
Qed.

(** The pipeline up to the deployment never writes the registry. *)
Lemma build_and_push_registry name version h :
  registry_file (build_and_push cfg w name version h).1.2 = registry_file h.
Proof.
  rewrite build_and_push_run.
  destruct (runs_only_checkout_workspace cfg w name h) as [Hr _].
  destruct (checkout_workspace cfg w name h) as [[e|[]] h1]; [done|].
  cbv zeta. by repeat case_match.
Qed.

Lemma run_build_registry name version h :
  registry_file (run_build cfg w name version h).1.2 = registry_file h.
Proof.
  rewrite run_build_run.
  pose proof (build_and_push_registry name version h) as Hr.
  destruct (build_and_push cfg w name version h) as [[[e|[]] h1] out];
    [done|].
  cbv zeta. by repeat case_match.
Qed.

(** The worker puts log items and then exactly one closing item. *)
Lemma run_build_queue name version h :
  ∃ lines closing,
    (run_build cfg w name version h).2 = (map ILog lines ++ [closing])%list
    ∧ (closing = IDone version ∨ ∃ message, closing = IError message).
Proof.
  rewrite run_build_run.
  destruct (build_and_push cfg w name version h) as [[[e|[]] h1] out].
  - exists out, (IError (str_exn e)). eauto.
  - cbv zeta. destruct (succeeds w (deploy_proc _ _ _ _)); cbn [negb].
    + eexists (out ++ [_])%list, _. cbn [snd].
      rewrite map_app. split; [reflexivity|].
      destruct (succeeds w (rollout_status_proc _ _)); eauto.
    + eexists (out ++ [_])%list, _. cbn [snd].
      rewrite map_app. split; [reflexivity|]. eauto.
Qed.

End Pipeline.

Section Build.

Context (cfg : config) (w : world).

Lemma map_snoc {A B} (f : A → B) (l : list A) (x : A) :
  (map f l ++ [f x])%list = map f (l ++ [x])%list.
Proof. by rewrite map_app. Qed.

Lemma registry_of_log_process p h :
  registry_of (log_process p h) = registry_of h.
Proof. reflexivity. Qed.

(** [build_app] once the work tree is synchronised, path by path. *)
Lemma build_app_paths name now h e h1 :
  registry_of h !! name = Some e →
  checkout_workspace cfg w name h = (inr tt, h1) →
  build_app cfg w name now h =
  let version := make_version now in
  let image := image_tag cfg name version in
  let build := docker_build_proc cfg name version in
  let push := docker_push_proc cfg name version in
  let deploy := deploy_proc cfg name "preview" version in
  let rollout := rollout_status_proc name "preview" in
  let h2 := log_process build h1 in
  let h3 := log_process push h2 in
  let h4 := log_process deploy h3 in
  let h5 := log_process rollout h4 in
  let out1 :=
    ("=== Building " +:+ image +:+ " ===" +:+ nl) :: stdout (w build) in
  let out2 :=
    (out1 ++ ("=== Pushing " +:+ image +:+ " ===" +:+ nl)
          :: stdout (w push))%list in
  let out3 :=
    (out2 ++ ["=== Build complete: " +:+ image +:+ " ===" +:+ nl;
              "=== Deploying to preview ===" +:+ nl])%list in
  if negb (succeeds w build)
  then (inr true, h2,
        (map LogEvent out1
         ++ [ErrorEvent (str_exn (build_failed "build" (w build)))])%list)
  else if negb (succeeds w push)
  then (inr true, h3,
        (map LogEvent out2
         ++ [ErrorEvent (str_exn (build_failed "push" (w push)))])%list)
  else if negb (succeeds w deploy)
  then (inr true, h4,
        (map LogEvent out3
         ++ [ErrorEvent (str_exn (kubectl_failed ["apply"; "-f"; "-"]
                                    (w deploy)))])%list)
  else if succeeds w rollout
  then (inr true,
        set_registry_file
          (Some (<[name := built version e]> (registry_of h))) h5,
        (map LogEvent out3
         ++ [DoneEvent version (_app_url cfg name "preview")])%list)
  else (inr true, h5,
        (map LogEvent out3 ++ [ErrorEvent "Rollout timed out"])%list).
Proof.
  intros He Hc.
  assert (Hreg : registry_of h1 = registry_of h).
  { destruct (runs_only_checkout_workspace cfg w name h) as [Hr _].
    rewrite Hc in Hr. cbn [snd] in Hr. unfold registry_of. by rewrite Hr. }
  rewrite build_app_run, He, run_build_run, build_and_push_run, Hc.
  cbv zeta.
  destruct (succeeds w (docker_build_proc _ _ _)); cbn [negb]; cbv iota;
    [|by rewrite event_loop_logs, event_loop_error].
  destruct (succeeds w (docker_push_proc _ _ _)); cbn [negb]; cbv iota;
    [|by rewrite event_loop_logs, event_loop_error].
  destruct (succeeds w (deploy_proc _ _ _ _)); cbn [negb]; cbv iota.
  - rewrite map_snoc, event_loop_logs.
    destruct (succeeds w (rollout_status_proc _ _)).
    + rewrite (event_loop_done _ _ _ _ _ e)
        by (by rewrite !registry_of_log_process, Hreg).
      rewrite !registry_of_log_process, Hreg.
      do 3 f_equal; list_norm.
    + rewrite event_loop_error. do 3 f_equal; list_norm.
  - rewrite map_snoc, event_loop_logs, event_loop_error.
    do 3 f_equal; list_norm.
Qed.

End Build.

(** * The workspace synchroniser *)

Ltac host_norm :=
  unfold set_workspaces, set_bare_repos, set_registry_file, log_process;
  cbn [workspaces bare_repos registry_file template_dirs processes];
  rewrite ?insert_insert_eq.

Section Workspace.

Context (cfg : config) (w : world).

Lemma write_all_union (new old : gmap string string) :
  write_all new old = new ∪ old.
Proof.
  unfold write_all.
  apply (map_fold_weak_ind (λ r m, r = m ∪ old)).
  - by rewrite (left_id_L ∅ (∪)).
  - intros i x m r _ ->. by rewrite insert_union_l.
Qed.



Lemma git_local_run args check workspace f h wt :
  workspaces h !! workspace = Some wt →
  git_local args check (in_worktree workspace f) h =
  (if check && negb ((f wt).1 =? 0)
   then inl (CalledProcessError (f wt).1 ("git" :: args))
   else inr (f wt).1,
   set_workspaces (<[workspace := (f wt).2]> (workspaces h))
     (log_process (git_proc args) h)).
Proof.
  intros Hwt. unfold git_local, in_worktree. cbn [workspaces log_process].
  rewrite Hwt. destruct (f wt) as [rc wt']. cbn [fst snd].
  by destruct (check && _).
Qed.


End Workspace.

Section Scaffold.

Context (cfg : config) (w : world).

Lemma scaffold_app_unknown app_name template h :
  template_dirs h !! template = None →
  scaffold_app cfg w app_name template h =
  (inl (ValueError ("Unknown template: " +:+ template)), h).
Proof.
  intros Ht. unfold scaffold_app. rewrite bind_run. cbn [get_host].
  by rewrite Ht.
Qed.

Lemma scaffold_app_run app_name template h template_dir :
  template_dirs h !! template = Some template_dir →
  ∃ h',
    scaffold_app cfg w app_name template h =
      (scaffold_outcome cfg w app_name template template_dir, h')
    ∧ workspaces h' =
        <[workspace_path cfg app_name :=
            scaffolded app_name template template_dir]> (workspaces h)
    ∧ registry_file h' = registry_file h.
Proof.
  intros Ht. unfold scaffold_app. rewrite bind_run. cbn [get_host].
  rewrite Ht. rewrite bind_run.
  set (ws := workspace_path cfg app_name).
  assert (Hfresh : ∃ h0,
    (if bool_decide (is_Some (workspaces h !! ws))
     then rmtree ws else mret ()) h = (inr tt, h0)
    ∧ <[ws := empty_worktree]> (workspaces h0)
      = <[ws := empty_worktree]> (workspaces h)
    ∧ registry_file h0 = registry_file h
    ∧ template_dirs h0 = template_dirs h ∧ bare_repos h0 = bare_repos h).
  { case_bool_decide.
    - eexists. split; [reflexivity|]. host_norm.
      by rewrite insert_delete_eq.
    - by eexists. }
  destruct Hfresh as (h0 & -> & Hws & Hreg & _ & _).
  rewrite bind_run. unfold mkdir at 1, modify_host at 1. rewrite Hws.
  rewrite bind_run. unfold git_init.
  erewrite git_local_run by apply lookup_insert_eq.
  cbn [fst snd andb negb Z.eqb]. cbv iota. host_norm.
  rewrite bind_run. unfold git_remote_add.
  erewrite git_local_run by apply lookup_insert_eq.
  cbn [fst snd andb negb Z.eqb]. cbv iota. host_norm.
  rewrite bind_run. unfold write_texts at 1, modify_host at 1.
  host_norm. rewrite lookup_insert_eq. host_norm.
  rewrite bind_run. unfold git_add_all.
  erewrite git_local_run by apply lookup_insert_eq.
  cbn [fst snd andb negb Z.eqb files index history empty_worktree].
  cbv iota. host_norm.
  rewrite write_all_union, (right_id_L ∅ (∪)).
  rewrite bind_run. unfold git_commit.
  erewrite git_local_run by apply lookup_insert_eq.
  cbn [files index history head_tree].
  unfold scaffold_outcome, scaffolded.
  destruct (bool_decide (stage template_dir = ∅)).
  - cbn [fst snd andb negb Z.eqb]. cbv iota. host_norm.
    eexists. split; [reflexivity|]. by rewrite Hreg.
  - cbn [fst snd andb negb Z.eqb]. cbv iota. host_norm.
    rewrite bind_run. unfold git_push, git_remote.
    rewrite !bind_run. unfold subprocess_run, succeeds, push_args. fold ws.
    destruct (returncode _ =? 0).
    + rewrite bind_run. unfold modify_host. host_norm.
      rewrite lookup_insert_eq. host_norm.
      eexists. split; [reflexivity|]. by rewrite Hreg.
    + cbv iota. unfold raise. host_norm.
      eexists. split; [reflexivity|]. by rewrite Hreg.
Qed.

End Scaffold.

(** * Reachable registries *)

Section Registry.

Context (cfg : config).

Lemma ends_in_bind R {A B} P (m : M A) (k : A → M B) :
  runs_only P m → (∀ a, ends_in R (k a)) → ends_in R (m ≫= k).
Proof.
  intros Hm Hk h. rewrite bind_run.
  pose proof (runs_only_registry m h Hm) as Hr.
  destruct (m h) as [[e|a] h1]; cbn [snd] in *; [by left|].
  rewrite <- Hr. apply Hk.
Qed.

Lemma ends_in_save R {A} data (x : A) :
  R data → ends_in R (_save_registry data ≫= λ _, mret x).
Proof. intros HR h. by right. Qed.

Lemma ends_in_raise R {A} e : ends_in R (@raise A e).
Proof. intros h. by left. Qed.

Lemma create_app_registry w app_name template description now h :
  registry_step cfg (registry_of h)
    (registry_of (create_app cfg w app_name template description now h).2).
Proof.
  unfold create_app. cbv zeta.
  set (name := replace_spaces (lower (strip app_name))).
  destruct (negb (isidentifier name) && _); [constructor|].
  destruct (negb (bool_decide _)); [constructor|].
  rewrite bind_run, load_registry_run.
  case_bool_decide as Hin; [constructor|].
  assert (Hnone : registry_of h !! name = None).
  { by destruct (registry_of h !! name); [destruct Hin|]. }
  match goal with
  | |- registry_step _ _ (registry_of (?m h).2) =>
      assert (Hends : ends_in
                (λ r, r = <[name := created cfg name template description now]>
                            (registry_of h)) m)
  end.
  { eapply ends_in_bind; [apply runs_only_create_namespace|intros _].
    eapply ends_in_bind; [apply runs_only_grant_builder_access|intros _].
    eapply ends_in_bind; [apply runs_only_create_env_configmap|intros _].
    eapply ends_in_bind; [apply runs_only_init_git_repo|intros _].
    eapply ends_in_bind; [apply runs_only_scaffold_app|intros _].
    by apply ends_in_save. }
  destruct (Hends h) as [-> | ->]; [constructor|].
  by apply step_created.
Qed.

Lemma publish_app_registry w name h :
  registry_step cfg (registry_of h)
    (registry_of (publish_app cfg w name h).2).
Proof.
  rewrite publish_app_run.
  destruct (registry_of h !! name) as [e|] eqn:He; [|constructor].
  cbv zeta.
  destruct (truthy (get e "preview_version")) eqn:Ht; [|constructor].
  cbn [negb]. repeat case_match; try apply step_none.
  by apply step_promoted.
Qed.

Lemma rollback_app_registry w name h :
  registry_step cfg (registry_of h)
    (registry_of (rollback_app cfg w name h).2).
Proof.
  rewrite rollback_app_run.
  destruct (registry_of h !! name) as [e|] eqn:He; [|constructor].
  cbv zeta.
  destruct (truthy (get e "rollback_version")) eqn:Ht.
  - repeat case_match; try apply step_none. by apply step_rolled_back.
  - rewrite andb_false_r. repeat case_match; apply step_none.
Qed.

Lemma build_app_registry w name now h :
  registry_step cfg (registry_of h)
    (registry_of (build_app cfg w name now h).1.2).
Proof.
  rewrite build_app_run.
  destruct (registry_of h !! name) as [e|] eqn:He; [|constructor].
  pose proof (run_build_registry cfg w name (make_version now) h) as Hr.
  destruct (run_build_queue cfg w name (make_version now) h)
    as (lines & closing & Hq & Hclosing).
  destruct (run_build cfg w name (make_version now) h) as [[r h1] queue].
  cbn [fst snd] in *. subst queue.
  assert (Hreg : registry_of h1 = registry_of h)
    by (unfold registry_of; by rewrite Hr).
  rewrite event_loop_logs.
  destruct Hclosing as [-> | [message ->]].
  - rewrite (event_loop_done _ _ _ _ _ e) by by rewrite Hreg.
    cbn [fst snd]. rewrite Hreg. by apply step_built.
  - rewrite event_loop_error. cbn [fst snd]. rewrite Hreg. constructor.
Qed.

Lemma delete_app_registry w name h :
  registry_step cfg (registry_of h)
    (registry_of (delete_app cfg w name h).2).
Proof.
  unfold delete_app. rewrite bind_run, get_app_run.
  destruct (registry_of h !! name) as [e|] eqn:He; [|constructor].
  rewrite bind_run.
  pose proof (runs_only_registry (delete_namespace w name) h
                (runs_only_delete_namespace w name)) as Hr.
  destruct (delete_namespace w name h) as [[e1|[]] h1]; cbn [snd] in Hr.
  - cbn [snd]. rewrite Hr. constructor.
  - rewrite bind_run. unfold delete_git_repo at 1, modify_host at 1.
    rewrite bind_run, load_registry_run.
    change (registry_of (set_workspaces _ (set_bare_repos _ h1)))
      with (registry_of h1).
    rewrite Hr, He. cbn [snd]. constructor.
Qed.

End Registry.

(** * Invariants of the reachable registries *)

Section Invariants.

Context (cfg : config).

Lemma get_insert_eq (e : gmap string jval) k v : get (<[k := v]> e) k = v.
Proof. unfold get. by rewrite lookup_insert_eq. Qed.

Lemma get_insert_ne (e : gmap string jval) k k' v :
  k ≠ k' → get (<[k := v]> e) k' = get e k'.
Proof. intros Hne. unfold get. by rewrite lookup_insert_ne. Qed.

Lemma append_nonempty_r (a b : string) : b ≠ "" → a +:+ b ≠ "".
Proof. by destruct a. Qed.

(** A build identifier is never the empty string. *)
Lemma make_version_nonempty now : make_version now ≠ "".
Proof.
  unfold make_version. do 3 apply append_nonempty_r. done.
Qed.

Lemma truthy_not_null v : truthy v = true → v ≠ JNull.
Proof. by destruct v. Qed.

Lemma version_ok_truthy v : version_ok v → v ≠ JNull → truthy v = true.
Proof.
  intros [->|(s & -> & Hs)] Hv; [done|]. cbn.
  apply negb_true_iff, String.eqb_neq. done.
Qed.

Lemma entry_ok_created name template description now :
  entry_ok (created cfg name template description now).
Proof.
  assert (Hpv : get (created cfg name template description now)
                  "preview_version" = JNull) by reflexivity.
  assert (Hprod : get (created cfg name template description now)
                    "prod_version" = JNull) by reflexivity.
  assert (Hrb : get (created cfg name template description now)
                  "rollback_version" = JNull) by reflexivity.
  split.
  - unfold versions_ok. rewrite Hpv, Hprod, Hrb. repeat split; by left.
  - intros [H|H]; [by rewrite Hprod in H|by rewrite Hrb in H].
Qed.

Lemma entry_ok_built now e : entry_ok e → entry_ok (built (make_version now) e).
Proof.
  intros [(Hpv & Hprod & Hrb) Hst]. unfold built. split.
  - unfold versions_ok.
    rewrite (get_insert_ne _ "status" "preview_version") by done.
    rewrite get_insert_eq.
    rewrite !(get_insert_ne _ "status"), !(get_insert_ne _ "preview_version")
      by done.
    repeat split; [|done|done].
    right. eexists. split; [done|apply make_version_nonempty].
  - intros _. left. apply get_insert_eq.
Qed.

Lemma entry_ok_promoted e : entry_ok e → entry_ok (promoted e).
Proof.
  intros [(Hpv & Hprod & Hrb) Hst]. unfold promoted. split.
  - unfold versions_ok.
    rewrite !(get_insert_ne _ "status") by done.
    rewrite (get_insert_ne _ "rollback_version" "preview_version") by done.
    rewrite (get_insert_ne _ "rollback_version" "prod_version") by done.
    rewrite (get_insert_ne _ "prod_version" "preview_version") by done.
    by rewrite !get_insert_eq.
  - intros _. right. apply get_insert_eq.
Qed.

Lemma entry_ok_rolled_back e :
  truthy (get e "rollback_version") = true →
  entry_ok e → entry_ok (rolled_back e).
Proof.
  intros Ht [(Hpv & Hprod & Hrb) Hst]. unfold rolled_back. split.
  - unfold versions_ok.
    rewrite (get_insert_ne _ "rollback_version" "preview_version") by done.
    rewrite (get_insert_ne _ "rollback_version" "prod_version") by done.
    rewrite (get_insert_ne _ "prod_version" "preview_version") by done.
    rewrite !get_insert_eq. repeat split; [done|done|by left].
  - intros _.
    rewrite (get_insert_ne _ "rollback_version" "status") by done.
    rewrite (get_insert_ne _ "prod_version" "status") by done.
    apply Hst. right. by apply truthy_not_null.
Qed.

Lemma registry_step_entry_ok r r' :
  registry_step cfg r r' →
  (∀ name e, r !! name = Some e → entry_ok e) →
  ∀ name e, r' !! name = Some e → entry_ok e.
Proof.
  intros Hstep Hr name e.
  destruct Hstep as [|n t d now Hn|n now e0 Hn|n e0 Hn Ht|n e0 Hn Ht|n].
  - apply Hr.
  - rewrite lookup_insert. case_decide as Heq; [|apply Hr].
    intros [= <-]. apply entry_ok_created.
  - rewrite lookup_insert. case_decide as Heq; [|apply Hr].
    intros [= <-]. eapply entry_ok_built, Hr, Hn.
  - rewrite lookup_insert. case_decide as Heq; [|apply Hr].
    intros [= <-]. eapply entry_ok_promoted, Hr, Hn.
  - rewrite lookup_insert. case_decide as Heq; [|apply Hr].
    intros [= <-]. eapply entry_ok_rolled_back, Hr, Hn. done.
  - rewrite lookup_delete. case_decide as Heq; [done|apply Hr].
Qed.

Lemma run_op_registry w o h :
  registry_step cfg (registry_of h) (registry_of (run_op cfg w o h)).
Proof.
  destruct o; cbn [run_op].
  - apply create_app_registry.
  - apply build_app_registry.
  - apply publish_app_registry.
  - apply rollback_app_registry.
  - apply delete_app_registry.
Qed.

(** Every entry of a reachable registry is well formed. *)
Lemma reachable_entry_ok h :
  reachable cfg h →
  ∀ name e, registry_of h !! name = Some e → entry_ok e.
Proof.
  induction 1 as [h Hnone|h w o Hreach IH].
  - intros name e. unfold registry_of. by rewrite Hnone.
  - eapply registry_step_entry_ok; [apply run_op_registry|exact IH].
Qed.

End Invariants.

(** * A concrete installation, for the examples *)

Lemma demo_hosts_reachable :
  reachable demo_config demo_created ∧ reachable demo_config demo_built
  ∧ reachable demo_config demo_published
  ∧ reachable demo_config demo_rebuilt
  ∧ reachable demo_config demo_republished.
Proof.
  assert (H0 : reachable demo_config fresh_host) by by constructor.
  repeat split; repeat (apply reachable_step); exact H0.
Qed.

(** The scenario of the specification, run on the embedding. *)
Example demo_scenario :
  field demo_built "demo" "preview_version" = JStr "20260101.000000"
  ∧ field demo_published "demo" "prod_version" = JStr "20260101.000000"
  ∧ field demo_published "demo" "rollback_version" = JNull
  ∧ field demo_republished "demo" "prod_version" = JStr "20260101.010000"
  ∧ field demo_republished "demo" "rollback_version"
    = JStr "20260101.000000"
  ∧ field (run_op demo_config all_succeed (Rollback "demo") demo_republished)
      "demo" "prod_version" = JStr "20260101.000000"
  ∧ field (run_op demo_config all_succeed (Rollback "demo") demo_republished)
      "demo" "rollback_version" = JNull.
Proof. vm_compute. repeat split. Qed.

(** * The claims: promotion and rollback *)

Lemma new_processes_log h l :
  new_processes h
    {| registry_file := registry_file h; workspaces := workspaces h;
       bare_repos := bare_repos h; template_dirs := template_dirs h;
       processes := (processes h ++ l)%list |} = l.
Proof. unfold new_processes. cbn [processes]. by rewrite drop_app_length. Qed.

Lemma new_processes_1 r p h :
  new_processes h (set_registry_file r (log_process p h)) = [p].
Proof. unfold new_processes. cbn. by rewrite drop_app_length. Qed.

Lemma new_processes_2 r p q h :
  new_processes h (set_registry_file r (log_process q (log_process p h)))
  = [p; q].
Proof.
  unfold new_processes. cbn. by rewrite <- app_assoc, drop_app_length.
Qed.

Lemma new_processes_3 r p q s h :
  new_processes h
    (set_registry_file r (log_process s (log_process q (log_process p h))))
  = [p; q; s].
Proof.
  unfold new_processes. cbn. by rewrite <- !app_assoc, drop_app_length.
Qed.

Lemma set_registry_file_id h : set_registry_file (registry_file h) h = h.
Proof. by destruct h. Qed.

(** On a reachable host a version field that is not [None] is a non-empty
    string, so the code's truthiness tests are tests for [None]. *)
Lemma reachable_truthy cfg h name e key :
  reachable cfg h → registry_of h !! name = Some e →
  key = "preview_version" ∨ key = "prod_version" ∨ key = "rollback_version" →
  get e key ≠ JNull → truthy (get e key) = true.
Proof.
  intros Hreach He Hkey Hv.
  destruct (reachable_entry_ok cfg h Hreach name e He)
    as [(Hpv & Hprod & Hrb) _].
  apply version_ok_truthy; [|done].
  by destruct Hkey as [->|[->| ->]].
Qed.

(** C2. [publish_app] on an entry without a preview version fails with
    [NothingToPromote] and leaves the host as it was; it returns normally
    only for a preview version that is not [None]; and when the manifest is
    applied and the production rollout succeeds, it returns normally and
    the registry entry afterwards has [prod_version] = the preview version,
    [rollback_version] = the production version that was current before
    the call and [status] = published.  (The code tests the preview version
    for truthiness; on a reachable registry that is the test for [None].) *)
Theorem publish_app_promotes cfg w name h e :
  registry_of h !! name = Some e →
  let preview := get e "preview_version" in
  let deploy := deploy_proc cfg name "prod" (py_str preview) in
  let rollout := rollout_status_proc name "prod" in
  (preview = JNull →
     publish_app cfg w name h = (inl NothingToPromote, h))
  ∧ (∀ r h', publish_app cfg w name h = (inr r, h') →
       preview ≠ JNull
       ∧ succeeds w rollout = true
       ∧ registry_of h' = <[name := promoted e]> (registry_of h))
  ∧ (truthy preview = true → succeeds w deploy = true →
     succeeds w rollout = true →
       ∃ r h', publish_app cfg w name h = (inr r, h')
               ∧ registry_of h' = <[name := promoted e]> (registry_of h))
  ∧ (reachable cfg h → preview ≠ JNull → truthy preview = true)
  ∧ get (promoted e) "prod_version" = preview
  ∧ get (promoted e) "rollback_version" = get e "prod_version"
  ∧ get (promoted e) "status" = JStr "published".
Proof.
  intros He. cbv zeta. rewrite publish_app_run, He. cbv zeta.
  split; [|split; [|split; [|split]]].
  - by intros ->.
  - intros r h'.
    destruct (truthy (get e "preview_version")) eqn:Ht; [|done].
    cbn [negb]. repeat case_match; try done.
    intros [= <- <-]. split; [by apply truthy_not_null|]. done.
  - intros -> -> ->. cbn [negb]. eauto.
  - intros Hreach. eapply reachable_truthy; eauto.
  - unfold promoted.
    rewrite (get_insert_ne _ "status" "prod_version") by done.
    rewrite (get_insert_ne _ "rollback_version" "prod_version") by done.
    rewrite (get_insert_ne _ "status" "rollback_version") by done.
    by rewrite !get_insert_eq.
Qed.

Lemma publish_app_promotes_witness :
  registry_of demo_built !! "demo"
    = Some (default ∅ (registry_of demo_built !! "demo"))
  ∧ ∃ r h', publish_app demo_config all_succeed "demo" demo_built = (inr r, h')
            ∧ field h' "demo" "prod_version" = JStr "20260101.000000".
Proof.
  assert (He : registry_of demo_built !! "demo"
               = Some (default ∅ (registry_of demo_built !! "demo")))
    by (vm_compute; reflexivity).
  split; [exact He|].
  destruct (publish_app_promotes demo_config all_succeed "demo" demo_built _ He)
    as (_ & _ & Hok & _).
  destruct Hok as (r & h' & Hrun & Hreg);
    [vm_compute; reflexivity|vm_compute; reflexivity|vm_compute; reflexivity|].
  exists r, h'. split; [exact Hrun|].
  unfold field. rewrite Hreg. vm_compute. reflexivity.
Defined.

(** C3, as the code has it.  When the manifest was applied and the
    production rollout fails or times out, [publish_app] raises and the
    registry file is what it was.  If a production version existed, the
    processes run are the apply, the rollout wait and the [set image] of
    that version, which is thus run exactly once; the exception is
    [PromotionFailed] when that command succeeds and the command's own
    [RuntimeError] when it fails.  If there was none, no revert is run and
    the exception is [PromotionFailed]. *)
Theorem publish_app_rollout_failure cfg w name h e :
  registry_of h !! name = Some e →
  let preview := get e "preview_version" in
  let current := get e "prod_version" in
  let deploy := deploy_proc cfg name "prod" (py_str preview) in
  let rollout := rollout_status_proc name "prod" in
  let revert := set_image_proc cfg name "prod" (py_str current) in
  truthy preview = true →
  succeeds w deploy = true →
  succeeds w rollout = false →
  ∃ err h',
    publish_app cfg w name h = (inl err, h')
    ∧ registry_file h' = registry_file h
    ∧ (truthy current = true →
         new_processes h h' = [deploy; rollout; revert]
         ∧ filter (λ p, p = revert) (new_processes h h') = [revert]
         ∧ err = if succeeds w revert then PromotionFailed
                 else kubectl_failed
                        (set_image_args cfg name "prod" (py_str current))
                        (w revert))
    ∧ (truthy current = false →
         new_processes h h' = [deploy; rollout] ∧ err = PromotionFailed)
    ∧ (reachable cfg h → current ≠ JNull → truthy current = true).
Proof.
  intros He. cbv zeta. intros Ht Hd Hr.
  rewrite publish_app_run, He. cbv zeta. rewrite Ht, Hd, Hr. cbn [negb].
  destruct (truthy (get e "prod_version")) eqn:Hc.
  - eexists _, _. split; [reflexivity|]. split; [done|].
    split; [|split; [done|]].
    + intros _.
      rewrite <- (set_registry_file_id
                    (log_process _ (log_process _ (log_process _ h)))).
      cbn [registry_file log_process]. rewrite new_processes_3.
      split; [done|]. split; [|done].
      rewrite !filter_cons, filter_nil.
      rewrite decide_False by done.
      rewrite decide_False by done.
      by rewrite decide_True.
    + done.
  - eexists _, _. split; [reflexivity|]. split; [done|].
    split; [done|]. split.
    + intros _.
      rewrite <- (set_registry_file_id (log_process _ (log_process _ h))).
      cbn [registry_file log_process]. by rewrite new_processes_2.
    + intros Hreach Hnull. rewrite <- Hc. eapply reachable_truthy; eauto.
Qed.

Lemma publish_app_rollout_failure_witness :
  ∃ h',
    publish_app demo_config
      (only_fails (rollout_status_proc "demo" "prod")) "demo" demo_rebuilt
    = (inl PromotionFailed, h')
    ∧ registry_file h' = registry_file demo_rebuilt.
Proof.
  assert (He : registry_of demo_rebuilt !! "demo"
               = Some (default ∅ (registry_of demo_rebuilt !! "demo")))
    by (vm_compute; reflexivity).
  destruct (publish_app_rollout_failure demo_config
              (only_fails (rollout_status_proc "demo" "prod"))
              "demo" demo_rebuilt _ He)
    as (err & h' & Hrun & Hreg & Hprod & _);
    [vm_compute; reflexivity|vm_compute; reflexivity|vm_compute; reflexivity|].
  exists h'. split; [|exact Hreg].
  destruct Hprod as (_ & _ & ->); [vm_compute; reflexivity|].
  exact Hrun.
Defined.

(** C3 as stated fails: a production version exists, the rollout fails
    and so does the revert; the operation then reports the revert's
    [RuntimeError], not [PromotionFailed]. *)
Lemma publish_app_revert_failure_not_promotion_failed :
  let w := both_fail (rollout_status_proc "demo" "prod")
             (set_image_proc demo_config "demo" "prod" "20260101.000000") in
  field demo_rebuilt "demo" "prod_version" = JStr "20260101.000000"
  ∧ succeeds w (rollout_status_proc "demo" "prod") = false
  ∧ (publish_app demo_config w "demo" demo_rebuilt).1
    = inl (RuntimeError
             ("kubectl set image deployment/demo-prod "
              +:+ "app=localhost:5050/demo:20260101.000000 -n app-demo "
              +:+ "failed:" +:+ nl +:+ "refused"))
  ∧ (publish_app demo_config w "demo" demo_rebuilt).1 ≠ inl PromotionFailed.
Proof. vm_compute. repeat split. discriminate. Qed.

(** C4. With a rollback version set, [rollback_app] runs [set image] of
    that version on production and waits for the rollout; the registry
    gets [prod_version] := the rollback version and [rollback_version] :=
    [None] exactly when the rollout succeeds, and is untouched otherwise.
    With no rollback version it runs [rollout undo] and waits, and the
    registry file is untouched whatever the outcome.  (The code tests the
    rollback version for truthiness; on a reachable registry that is the
    test for [None].) *)
Theorem rollback_app_restores cfg w name h e :
  registry_of h !! name = Some e →
  let target := get e "rollback_version" in
  let apply := set_image_proc cfg name "prod" (py_str target) in
  let undo := rollout_undo_proc name "prod" in
  let rollout := rollout_status_proc name "prod" in
  let ok := succeeds w rollout in
  (truthy target = true → succeeds w apply = true →
     ∃ h', rollback_app cfg w name h = (inr (JSONResponse [("ok", JBool ok)]), h')
           ∧ new_processes h h' = [apply; rollout]
           ∧ registry_file h'
             = if ok then Some (<[name := rolled_back e]> (registry_of h))
               else registry_file h)
  ∧ (truthy target = true → succeeds w apply = false →
       rollback_app cfg w name h
       = (inl (kubectl_failed
                 (set_image_args cfg name "prod" (py_str target)) (w apply)),
          log_process apply h))
  ∧ (target = JNull → succeeds w undo = true →
       ∃ h', rollback_app cfg w name h
             = (inr (JSONResponse [("ok", JBool ok)]), h')
             ∧ new_processes h h' = [undo; rollout]
             ∧ registry_file h' = registry_file h)
  ∧ (target = JNull → succeeds w undo = false →
       rollback_app cfg w name h
       = (inl (kubectl_failed (rollout_undo_args name "prod") (w undo)),
          log_process undo h))
  ∧ (reachable cfg h → target ≠ JNull → truthy target = true)
  ∧ get (rolled_back e) "prod_version" = target
  ∧ get (rolled_back e) "rollback_version" = JNull.
Proof.
  intros He. cbv zeta. rewrite rollback_app_run, He. cbv zeta.
  split; [|split; [|split; [|split; [|split; [|split]]]]].
  - intros -> ->. cbn [negb]. rewrite andb_true_r.
    eexists. split; [reflexivity|].
    destruct (succeeds w (rollout_status_proc name "prod")).
    + split; [apply new_processes_2|done].
    + rewrite <- (set_registry_file_id (log_process _ (log_process _ h))).
      split; [apply new_processes_2|done].
  - by intros -> ->.
  - intros Hnull Hundo. rewrite Hnull. cbn [truthy]. rewrite Hundo.
    cbn [negb]. rewrite andb_false_r.
    eexists. split; [reflexivity|].
    rewrite <- (set_registry_file_id (log_process _ (log_process _ h))).
    split; [apply new_processes_2|done].
  - intros Hnull Hundo. rewrite Hnull. cbn [truthy]. by rewrite Hundo.
  - intros Hreach. eapply reachable_truthy; eauto.
  - unfold rolled_back.
    rewrite (get_insert_ne _ "rollback_version" "prod_version") by done.
    apply get_insert_eq.
  - apply get_insert_eq.
Qed.

Lemma rollback_app_restores_witness :
  ∃ h', rollback_app demo_config all_succeed "demo" demo_republished
        = (inr (JSONResponse [("ok", JBool true)]), h')
        ∧ field h' "demo" "prod_version" = JStr "20260101.000000"
        ∧ field h' "demo" "rollback_version" = JNull.
Proof.
  assert (He : registry_of demo_republished !! "demo"
               = Some (default ∅ (registry_of demo_republished !! "demo")))
    by (vm_compute; reflexivity).
  destruct (rollback_app_restores demo_config all_succeed "demo"
              demo_republished _ He) as (Hset & _).
  destruct Hset as (h' & Hrun & _ & Hreg);
    [vm_compute; reflexivity|vm_compute; reflexivity|].
  exists h'. split; [exact Hrun|].
  unfold field, registry_of. rewrite Hreg. vm_compute. by split.
Defined.

(** C8, as the code has it.  In every reachable registry an entry with a
    production version has status [published] or [preview]: a build after
    a publication sets the status back to [preview] and keeps the
    production version. *)
Theorem prod_version_status cfg h name e :
  reachable cfg h →
  registry_of h !! name = Some e →
  get e "prod_version" ≠ JNull →
  get e "status" = JStr "published" ∨ get e "status" = JStr "preview".
Proof.
  intros Hreach He Hprod.
  destruct (reachable_entry_ok cfg h Hreach name e He) as [_ Hst].
  destruct Hst as [->| ->]; auto.
Qed.

Lemma prod_version_status_witness :
  get (default ∅ (registry_of demo_published !! "demo")) "status"
    = JStr "published"
  ∨ get (default ∅ (registry_of demo_published !! "demo")) "status"
    = JStr "preview".
Proof.
  apply (prod_version_status demo_config demo_published "demo").
  - apply demo_hosts_reachable.
  - vm_compute. reflexivity.
  - vm_compute. discriminate.
Defined.

(** C8 as stated fails: after create, build, publish and a second build
    the entry has a production version and the status [preview]. *)
Lemma prod_version_without_published :
  reachable demo_config demo_rebuilt
  ∧ field demo_rebuilt "demo" "prod_version" = JStr "20260101.000000"
  ∧ field demo_rebuilt "demo" "status" = JStr "preview"
  ∧ field demo_rebuilt "demo" "status" ≠ JStr "published".
Proof.
  split; [apply demo_hosts_reachable|].
  vm_compute. repeat split. discriminate.
Qed.

(** * The claims: the build pipeline *)

Lemma elem_of_map_LogEvent ev lines :
  ev ∈ map LogEvent lines → ¬ terminal ev.
Proof.
  intros Hin. apply list_elem_of_In, in_map_iff in Hin.
  destruct Hin as (line & <- & _). by intros [].
Qed.

(** C7. A build invocation for an unknown application raises [NotFound]
    before any event is sent.  Otherwise the stream is the log lines the
    worker put on the queue, in the worker's order, followed by exactly one
    closing event, [done] or [error]; the loop is then left, so nothing
    follows the closing event. *)
Theorem build_app_event_stream cfg w name now h :
  match registry_of h !! name with
  | None => build_app cfg w name now h = (inl (NotFound name), h, [])
  | Some _ =>
      ∃ lines item closing h',
        (run_build cfg w name (make_version now) h).2
          = (map ILog lines ++ [item])%list
        ∧ build_app cfg w name now h
          = (inr true, h', (map LogEvent lines ++ [closing])%list)
        ∧ terminal closing
        ∧ Forall (λ ev, ¬ terminal ev) (map LogEvent lines)
  end.
Proof.
  rewrite build_app_run.
  destruct (registry_of h !! name) as [e|] eqn:He; [|done].
  pose proof (run_build_registry cfg w name (make_version now) h) as Hr.
  destruct (run_build_queue cfg w name (make_version now) h)
    as (lines & item & Hq & Hitem).
  destruct (run_build cfg w name (make_version now) h) as [[r h1] queue].
  cbn [fst snd] in *. subst queue.
  assert (Hreg : registry_of h1 = registry_of h)
    by (unfold registry_of; by rewrite Hr).
  assert (Hlogs : Forall (λ ev, ¬ terminal ev) (map LogEvent lines)).
  { apply Forall_forall. intros ev. apply elem_of_map_LogEvent. }
  rewrite event_loop_logs.
  destruct Hitem as [-> | [message ->]].
  - rewrite (event_loop_done _ _ _ _ _ e) by by rewrite Hreg.
    by eexists lines, _, _, _.
  - rewrite event_loop_error. by eexists lines, _, _, _.
Qed.

(** C1, as the code has it.  A build whose stream sends [done] has
    recorded [preview_version] = the version of this build and [status] =
    [preview] in the application's entry, and left its other fields
    alone; and the stream does end in [done] when the work tree is
    synchronised, docker build and push exit with zero, the manifest is
    applied and the preview rollout is ready in time. *)
Theorem build_app_succeeded cfg w name now h e :
  registry_of h !! name = Some e →
  let version := make_version now in
  let result := build_app cfg w name now h in
  (∀ v url, DoneEvent v url ∈ result.2 →
     v = version
     ∧ registry_of result.1.2 = <[name := built version e]> (registry_of h))
  ∧ (∀ h1, checkout_workspace cfg w name h = (inr tt, h1) →
       succeeds w (docker_build_proc cfg name version) = true →
       succeeds w (docker_push_proc cfg name version) = true →
       succeeds w (deploy_proc cfg name "preview" version) = true →
       succeeds w (rollout_status_proc name "preview") = true →
       last result.2 = Some (DoneEvent version (_app_url cfg name "preview")))
  ∧ get (built version e) "preview_version" = JStr version
  ∧ get (built version e) "status" = JStr "preview"
  ∧ ∀ key, key ≠ "preview_version" → key ≠ "status" →
           get (built version e) key = get e key.
Proof.
  intros He. cbv zeta. split; [|split; [|split; [|split]]].
  - intros v url. rewrite build_app_run, He.
    pose proof (run_build_registry cfg w name (make_version now) h) as Hr.
    destruct (run_build_queue cfg w name (make_version now) h)
      as (lines & item & Hq & Hitem).
    destruct (run_build cfg w name (make_version now) h) as [[r h1] queue].
    cbn [fst snd] in *. subst queue.
    assert (Hreg : registry_of h1 = registry_of h)
      by (unfold registry_of; by rewrite Hr).
    rewrite event_loop_logs.
    destruct Hitem as [-> | [message ->]].
    + rewrite (event_loop_done _ _ _ _ _ e) by by rewrite Hreg.
      cbn [fst snd]. rewrite Hreg.
      intros [Hin|Hin%list_elem_of_singleton]%elem_of_app.
      * by apply elem_of_map_LogEvent in Hin.
      * by injection Hin as -> _.
    + rewrite event_loop_error. cbn [fst snd].
      intros [Hin|Hin%list_elem_of_singleton]%elem_of_app; [|done].
      by apply elem_of_map_LogEvent in Hin.
  - intros h1 Hc Hb Hp Hd Hro.
    rewrite (build_app_paths cfg w name now h e h1 He Hc). cbv zeta.
    rewrite Hb, Hp, Hd, Hro. cbn [negb snd]. apply last_snoc.
  - unfold built.
    rewrite (get_insert_ne _ "status" "preview_version") by done.
    apply get_insert_eq.
  - apply get_insert_eq.
  - intros key Hk1 Hk2. unfold built. by rewrite !get_insert_ne.
Qed.

Lemma build_app_succeeded_witness :
  last (build_app demo_config all_succeed "demo" new_year demo_created).2
  = Some (DoneEvent "20260101.000000"
            "http://demo-preview.127.0.0.1.nip.io/").
Proof.
  assert (He : registry_of demo_created !! "demo"
               = Some (default ∅ (registry_of demo_created !! "demo")))
    by (vm_compute; reflexivity).
  destruct (build_app_succeeded demo_config all_succeed "demo" new_year
              demo_created _ He) as (_ & Hdone & _).
  eapply Hdone; vm_compute; reflexivity.
Defined.

(** C1 as stated fails: the build succeeds and the status recorded is
    [preview], not [built-preview]. *)
Lemma build_app_status_not_built_preview :
  last (build_app demo_config all_succeed "demo" new_year demo_created).2
  = Some (DoneEvent "20260101.000000"
            "http://demo-preview.127.0.0.1.nip.io/")
  ∧ field demo_built "demo" "preview_version" = JStr "20260101.000000"
  ∧ field demo_built "demo" "status" = JStr "preview"
  ∧ field demo_built "demo" "status" ≠ JStr "built-preview".
Proof. vm_compute. repeat split. discriminate. Qed.

Lemma is_git_not_docker_push cfg name version :
  ¬ is_git (docker_push_proc cfg name version).
Proof. by intros [=]. Qed.

(** C5. When the work tree is synchronised and docker build exits with a
    non-zero status, the stream is the build's log lines followed by the
    error event of [BuildError]; the registry file is what it was, so the
    entry and its [preview_version] are unchanged; and the only processes
    run are the git commands of the synchronisation and the docker build:
    no docker push, no kubectl. *)
Theorem build_failure_stops_pipeline cfg w name now h e h1 :
  registry_of h !! name = Some e →
  checkout_workspace cfg w name h = (inr tt, h1) →
  let version := make_version now in
  let build := docker_build_proc cfg name version in
  succeeds w build = false →
  let result := build_app cfg w name now h in
  (∃ lines,
     result = (inr true, log_process build h1,
               (map LogEvent lines
                ++ [ErrorEvent (str_exn (build_failed "build" (w build)))])%list))
  ∧ str_exn (build_failed "build" (w build))
    = "docker build failed (exit " +:+ pretty (returncode (w build)) +:+ ")"
  ∧ registry_file result.1.2 = registry_file h
  ∧ registry_of result.1.2 !! name = Some e
  ∧ Forall (λ p, is_git p ∨ p = build) (new_processes h result.1.2)
  ∧ (docker_push_proc cfg name version ∉ new_processes h result.1.2)
  ∧ (∀ p, p ∈ new_processes h result.1.2 →
          head (argv p) ≠ Some "kubectl").
Proof.
  intros He Hc. cbv zeta. intros Hb.
  rewrite (build_app_paths cfg w name now h e h1 He Hc). cbv zeta.
  rewrite Hb. cbn [negb fst snd].
  destruct (runs_only_checkout_workspace cfg w name h)
    as [Hreg (l & Hl & Hgit)].
  rewrite Hc in Hreg, Hl. cbn [snd] in Hreg, Hl.
  assert (Hnew : new_processes h
                   (log_process (docker_build_proc cfg name (make_version now))
                      h1)
                 = (l ++ [docker_build_proc cfg name (make_version now)])%list).
  { unfold new_processes. cbn [log_process processes].
    by rewrite Hl, <- app_assoc, drop_app_length. }
  assert (Hall : Forall (λ p, is_git p
                          ∨ p = docker_build_proc cfg name (make_version now))
                   (l ++ [docker_build_proc cfg name (make_version now)])%list).
  { apply Forall_app. split.
    - eapply Forall_impl; [exact Hgit|]. by left.
    - apply Forall_singleton. by right. }
  rewrite Hnew.
  split; [by eexists|]. split; [done|]. split; [done|].
  split.
  { unfold registry_of in *. cbn [log_process registry_file].
    by rewrite Hreg. }
  split; [done|]. split.
  - intros Hin. rewrite Forall_forall in Hall.
    destruct (Hall _ Hin) as [Hg|Heq].
    + by apply is_git_not_docker_push in Hg.
    + discriminate Heq.
  - intros p Hin. rewrite Forall_forall in Hall.
    destruct (Hall _ Hin) as [Hg| ->].
    + unfold is_git in Hg. rewrite Hg. by intros [=].
    + by intros [=].
Qed.

Lemma build_failure_stops_pipeline_witness :
  let w := only_fails (docker_build_proc demo_config "demo" "20260101.010000") in
  (build_app demo_config w "demo" one_hour_later demo_published).2
  = [LogEvent ("=== Building localhost:5050/demo:20260101.010000 ===" +:+ nl);
     LogEvent ("step" +:+ nl);
     ErrorEvent "docker build failed (exit 1)"]
  ∧ registry_file
      (build_app demo_config w "demo" one_hour_later demo_published).1.2
    = registry_file demo_published.
Proof.
  cbv zeta.
  set (w := only_fails
              (docker_build_proc demo_config "demo" "20260101.010000")).
  assert (He : registry_of demo_published !! "demo"
               = Some (default ∅ (registry_of demo_published !! "demo")))
    by (vm_compute; reflexivity).
  assert (Hc : checkout_workspace demo_config w "demo" demo_published
               = (inr tt,
                  (checkout_workspace demo_config w "demo" demo_published).2))
    by (vm_compute; reflexivity).
  assert (Hb : succeeds w (docker_build_proc demo_config "demo"
                             (make_version one_hour_later)) = false)
    by (vm_compute; reflexivity).
  destruct (build_failure_stops_pipeline demo_config w "demo" one_hour_later
              demo_published _ _ He Hc Hb)
    as ((lines & Hrun) & _ & Hreg & _).
  split; [vm_compute; reflexivity|exact Hreg].
Defined.

(** * The claims: the workspace synchroniser *)










(** C9, as the code has it.  [scaffold_app] raises [ValueError] ("Unknown
    template") when the template directory does not exist, and changes
    nothing.  For a template that exists a work tree already there is no
    error: it is replaced by a fresh one holding the template's files, and
    the call ends as it would without it, failing only when git finds
    nothing to commit or the push is refused. *)
Theorem scaffold_app_replaces cfg w app_name template h :
  (template_dirs h !! template = None →
     scaffold_app cfg w app_name template h
     = (inl (ValueError ("Unknown template: " +:+ template)), h))
  ∧ (∀ template_dir,
       template_dirs h !! template = Some template_dir →
       ∃ h',
         scaffold_app cfg w app_name template h
         = (scaffold_outcome cfg w app_name template template_dir, h')
         ∧ workspaces h' !! workspace_path cfg app_name
           = Some (scaffolded app_name template template_dir)
         ∧ (stage template_dir ≠ ∅ →
            succeeds w (git_proc (push_args cfg app_name)) = true →
            scaffold_outcome cfg w app_name template template_dir = inr tt)).
Proof.
  split; [apply scaffold_app_unknown|].
  intros template_dir Ht.
  destruct (scaffold_app_run cfg w app_name template h template_dir Ht)
    as (h' & Hrun & Hws & _).
  exists h'. split; [done|]. split.
  - rewrite Hws. apply lookup_insert_eq.
  - intros Hne Hpush. unfold scaffold_outcome.
    rewrite bool_decide_eq_false_2 by done. by rewrite Hpush.
Qed.

Lemma scaffold_app_replaces_witness :
  scaffold_app demo_config all_succeed "demo" "no-such-template" stale_host
  = (inl (ValueError "Unknown template: no-such-template"), stale_host)
  ∧ ∃ h', scaffold_app demo_config all_succeed "demo" "simple-api" stale_host
          = (inr tt, h')
          ∧ files <$> workspaces h' !! workspace_path demo_config "demo"
            = Some {[ "app.py" := "print(1)" ]}.
Proof.
  destruct (scaffold_app_replaces demo_config all_succeed "demo"
              "no-such-template" stale_host) as [Hunknown _].
  split; [apply Hunknown; vm_compute; reflexivity|].
  destruct (scaffold_app_replaces demo_config all_succeed "demo"
              "simple-api" stale_host) as [_ Hknown].
  destruct (Hknown {[ "app.py" := "print(1)" ]}) as (h' & Hrun & Hws & Hok);
    [vm_compute; reflexivity|].
  rewrite Hok in Hrun; [|vm_compute; discriminate|vm_compute; reflexivity].
  exists h'. split; [exact Hrun|]. rewrite Hws. vm_compute. reflexivity.
Defined.

(** C9 as stated fails: a work tree directory exists for the application
    and [scaffold_app] does not fail; it returns normally, the stray file
    is gone and the work tree holds the template's files. *)
Lemma scaffold_app_no_workspace_conflict :
  is_Some (workspaces stale_host !! workspace_path demo_config "demo")
  ∧ (scaffold_app demo_config all_succeed "demo" "simple-api" stale_host).1
    = inr tt
  ∧ files <$> workspaces
                (scaffold_app demo_config all_succeed "demo" "simple-api"
                   stale_host).2 !! workspace_path demo_config "demo"
    = Some {[ "app.py" := "print(1)" ]}.
Proof.
  split; [eexists; vm_compute; reflexivity|]. vm_compute. by split.
Qed.

(** C10. For an application whose work tree directory does not exist,
    [get_workspace_files] returns the empty dictionary and
    [write_files_to_workspace] raises [RuntimeError]; neither changes the
    host. *)
Theorem missing_workspace_disagreement cfg w app_name new h :
  workspaces h !! workspace_path cfg app_name = None →
  get_workspace_files cfg app_name h = (inr ∅, h)
  ∧ write_files_to_workspace cfg w app_name new h
    = (inl (RuntimeError
              ("Workspace not found: " +:+ workspace_path cfg app_name)), h).
Proof.
  intros Hws. split.
  - unfold get_workspace_files. rewrite bind_run. cbn [get_host].
    by rewrite Hws.
  - unfold write_files_to_workspace. rewrite bind_run. cbn [get_host].
    rewrite bool_decide_eq_false_2; [done|].
    rewrite Hws. by intros [? ?].
Qed.

Lemma missing_workspace_disagreement_witness :
  get_workspace_files demo_config "ghost" demo_created = (inr ∅, demo_created)
  ∧ write_files_to_workspace demo_config all_succeed "ghost"
      {[ "app.py" := "print(2)" ]} demo_created
    = (inl (RuntimeError
              "Workspace not found: /var/git/apps/ghost-workspace"),
       demo_created).
Proof.
  apply (missing_workspace_disagreement demo_config all_succeed "ghost"
           {[ "app.py" := "print(2)" ]} demo_created).
  vm_compute. reflexivity.
Defined.

(** * Further properties of the build pipeline *)

Section BuildFailures.

Context (cfg : config) (w : world).

Lemma checkout_workspace_processes name h r h1 :
  checkout_workspace cfg w name h = (r, h1) →
  registry_file h1 = registry_file h
  ∧ ∃ l, processes h1 = (processes h ++ l)%list ∧ Forall is_git l.
Proof.
  intros Hc.
  destruct (runs_only_checkout_workspace cfg w name h) as [Hreg Hl].
  by rewrite Hc in Hreg, Hl.
Qed.

Lemma new_processes_app h h1 l l' :
  processes h1 = (processes h ++ l)%list →
  new_processes h
    {| registry_file := registry_file h1; workspaces := workspaces h1;
       bare_repos := bare_repos h1; template_dirs := template_dirs h1;
       processes := (processes h1 ++ l')%list |} = (l ++ l')%list.
Proof.
  intros Hl. unfold new_processes. cbn [processes].
  by rewrite Hl, <- app_assoc, drop_app_length.
Qed.

Lemma is_git_not_kubectl p : is_git p → head (argv p) ≠ Some "kubectl".
Proof. unfold is_git. intros ->. by intros [=]. Qed.

(** X1. The registry file changes only in a build whose stream ends in
    [done]. *)
Theorem build_app_registry_only_on_done name now h :
  registry_file (build_app cfg w name now h).1.2 = registry_file h
  ∨ last (build_app cfg w name now h).2
    = Some (DoneEvent (make_version now) (_app_url cfg name "preview")).
Proof.
  rewrite build_app_run.
  destruct (registry_of h !! name) as [e|] eqn:He; [|by left].
  pose proof (run_build_registry cfg w name (make_version now) h) as Hr.
  destruct (run_build_queue cfg w name (make_version now) h)
    as (lines & item & Hq & Hitem).
  destruct (run_build cfg w name (make_version now) h) as [[r h1] queue].
  cbn [fst snd] in *. subst queue.
  assert (Hreg : registry_of h1 = registry_of h)
    by (unfold registry_of; by rewrite Hr).
  rewrite event_loop_logs.
  destruct Hitem as [-> | [message ->]].
  - right. rewrite (event_loop_done _ _ _ _ _ e) by by rewrite Hreg.
    cbn [snd]. apply last_snoc.
  - left. by rewrite event_loop_error.
Qed.

(** X2. When the work tree cannot be synchronised, the stream is the single
    error event of that failure, and neither docker nor kubectl is run. *)
Theorem build_app_sync_failure name now h e err h1 :
  registry_of h !! name = Some e →
  checkout_workspace cfg w name h = (inl err, h1) →
  build_app cfg w name now h = (inr true, h1, [ErrorEvent (str_exn err)])
  ∧ registry_file h1 = registry_file h
  ∧ Forall is_git (new_processes h h1).
Proof.
  intros He Hc.
  destruct (checkout_workspace_processes name h _ h1 Hc)
    as (Hreg & l & Hl & Hgit).
  rewrite build_app_run, He, run_build_run, build_and_push_run, Hc.
  cbn [map app]. rewrite event_loop_error.
  split; [done|]. split; [done|].
  unfold new_processes. by rewrite Hl, drop_app_length.
Qed.

(** X3. When docker push exits with a non-zero status, the stream ends in the
    error event of [BuildError] for the push, the registry file is what it
    was, and kubectl is never run. *)
Theorem build_app_push_failure name now h e h1 :
  registry_of h !! name = Some e →
  checkout_workspace cfg w name h = (inr tt, h1) →
  let version := make_version now in
  let build := docker_build_proc cfg name version in
  let push := docker_push_proc cfg name version in
  succeeds w build = true →
  succeeds w push = false →
  let result := build_app cfg w name now h in
  last result.2
  = Some (ErrorEvent ("docker push failed (exit "
                      +:+ pretty (returncode (w push)) +:+ ")"))
  ∧ registry_file result.1.2 = registry_file h
  ∧ (∃ l, new_processes h result.1.2 = (l ++ [build; push])%list
          ∧ Forall is_git l)
  ∧ (∀ p, p ∈ new_processes h result.1.2 → head (argv p) ≠ Some "kubectl").
Proof.
  intros He Hc. cbv zeta. intros Hb Hp.
  destruct (checkout_workspace_processes name h _ h1 Hc)
    as (Hreg & l & Hl & Hgit).
  rewrite (build_app_paths cfg w name now h e h1 He Hc). cbv zeta.
  rewrite Hb, Hp. cbn [negb fst snd].
  assert (Hnew : new_processes h
      (log_process (docker_push_proc cfg name (make_version now))
         (log_process (docker_build_proc cfg name (make_version now)) h1))
    = (l ++ [docker_build_proc cfg name (make_version now);
             docker_push_proc cfg name (make_version now)])%list).
  { unfold new_processes. cbn [log_process processes].
    by rewrite Hl, <- !app_assoc, drop_app_length. }
  rewrite Hnew.
  split; [apply last_snoc|]. split; [done|]. split; [by exists l|].
  intros p [Hin|Hin]%elem_of_app.
  - rewrite Forall_forall in Hgit. by apply is_git_not_kubectl, Hgit.
  - apply list_elem_of_In in Hin. destruct Hin as [<-|[<-|[]]]; by intros [=].
Qed.

(** X4. When every phase succeeds but the preview rollout is not ready in
    time, the image has been pushed and the manifest applied, the stream ends
    in the error event "Rollout timed out", and the registry file is what it
    was: the preview environment runs the new image while the registry still
    names the old one. *)
Theorem build_app_rollout_timeout name now h e h1 :
  registry_of h !! name = Some e →
  checkout_workspace cfg w name h = (inr tt, h1) →
  let version := make_version now in
  let build := docker_build_proc cfg name version in
  let push := docker_push_proc cfg name version in
  let deploy := deploy_proc cfg name "preview" version in
  let rollout := rollout_status_proc name "preview" in
  succeeds w build = true →
  succeeds w push = true →
  succeeds w deploy = true →
  succeeds w rollout = false →
  let result := build_app cfg w name now h in
  last result.2 = Some (ErrorEvent "Rollout timed out")
  ∧ registry_file result.1.2 = registry_file h
  ∧ ∃ l, new_processes h result.1.2
         = (l ++ [build; push; deploy; rollout])%list
         ∧ Forall is_git l.
Proof.
  intros He Hc. cbv zeta. intros Hb Hp Hd Hro.
  destruct (checkout_workspace_processes name h _ h1 Hc)
    as (Hreg & l & Hl & Hgit).
  rewrite (build_app_paths cfg w name now h e h1 He Hc). cbv zeta.
  rewrite Hb, Hp, Hd, Hro. cbn [negb fst snd].
  split; [apply last_snoc|]. split; [done|]. exists l. split; [|done].
  unfold new_processes. cbn [log_process processes].
  by rewrite Hl, <- !app_assoc, drop_app_length.
Qed.

End BuildFailures.

(** * Further properties of the promotion/rollback controller *)

Section ControllerMore.

Context (cfg : config).

Lemma registry_of_saved r h : registry_of (set_registry_file (Some r) h) = r.
Proof. reflexivity. Qed.

(** X5. When the manifest cannot be applied, [publish_app] raises kubectl's
    [RuntimeError] at once: the apply is the only process run, so there is no
    rollout wait and no revert, and the registry file is what it was. *)
Theorem publish_app_apply_failure w name h e :
  registry_of h !! name = Some e →
  let preview := get e "preview_version" in
  let deploy := deploy_proc cfg name "prod" (py_str preview) in
  truthy preview = true →
  succeeds w deploy = false →
  ∃ h', publish_app cfg w name h
        = (inl (kubectl_failed ["apply"; "-f"; "-"] (w deploy)), h')
        ∧ new_processes h h' = [deploy]
        ∧ registry_file h' = registry_file h.
Proof.
  intros He. cbv zeta. intros Ht Hd.
  rewrite publish_app_run, He. cbv zeta. rewrite Ht, Hd. cbn [negb].
  eexists. split; [reflexivity|].
  rewrite <- (set_registry_file_id (log_process _ h)).
  split; [apply new_processes_1|done].
Qed.

(** X6. Every route on an application that is not in the registry raises
    [NotFound] without running a process or changing the host. *)
Theorem unknown_app_not_found w name now h :
  registry_of h !! name = None →
  build_app cfg w name now h = (inl (NotFound name), h, [])
  ∧ publish_app cfg w name h = (inl (NotFound name), h)
  ∧ rollback_app cfg w name h = (inl (NotFound name), h)
  ∧ delete_app cfg w name h = (inl (NotFound name), h).
Proof.
  intros Hn.
  rewrite build_app_run, publish_app_run, rollback_app_run, Hn.
  repeat split.
  unfold delete_app. by rewrite bind_run, get_app_run, Hn.
Qed.

(** X7. A promotion followed by a rollback, both successful, on an entry that
    had a production version: the registry names the pre-promotion production
    version again, the rollback version is cleared, and the preview version
    and the status [published] stay. *)
Theorem publish_then_rollback w1 w2 name h e :
  registry_of h !! name = Some e →
  let preview := get e "preview_version" in
  let current := get e "prod_version" in
  truthy preview = true →
  truthy current = true →
  succeeds w1 (deploy_proc cfg name "prod" (py_str preview)) = true →
  succeeds w1 (rollout_status_proc name "prod") = true →
  succeeds w2 (set_image_proc cfg name "prod" (py_str current)) = true →
  succeeds w2 (rollout_status_proc name "prod") = true →
  let h1 := (publish_app cfg w1 name h).2 in
  let h2 := (rollback_app cfg w2 name h1).2 in
  registry_of h2 = <[name := rolled_back (promoted e)]> (registry_of h)
  ∧ get (rolled_back (promoted e)) "prod_version" = current
  ∧ get (rolled_back (promoted e)) "rollback_version" = JNull
  ∧ get (rolled_back (promoted e)) "preview_version" = preview
  ∧ get (rolled_back (promoted e)) "status" = JStr "published".
Proof.
  intros He. cbv zeta. intros Ht Hc Hd Hr Hs Hr2.
  assert (Hrb : get (promoted e) "rollback_version" = get e "prod_version").
  { unfold promoted.
    rewrite (get_insert_ne _ "status" "rollback_version") by done.
    apply get_insert_eq. }
  rewrite publish_app_run, He. cbv zeta. rewrite Ht, Hd, Hr. cbn [negb snd].
  rewrite rollback_app_run.
  rewrite registry_of_saved, lookup_insert_eq. cbv zeta.
  rewrite Hrb, Hc, Hs, Hr2. cbn [negb andb snd].
  rewrite !registry_of_saved, insert_insert_eq.
  split; [done|]. unfold rolled_back. rewrite Hrb.
  rewrite (get_insert_ne _ "rollback_version" "prod_version") by done.
  rewrite !get_insert_eq.
  rewrite !(get_insert_ne _ "rollback_version") by done.
  rewrite !(get_insert_ne _ "prod_version") by done.
  unfold promoted.
  rewrite (get_insert_ne _ "status" "preview_version") by done.
  rewrite (get_insert_ne _ "rollback_version" "preview_version") by done.
  rewrite (get_insert_ne _ "prod_version" "preview_version") by done.
  by rewrite get_insert_eq.
Qed.

(** X8. The rollback version is used once: after a successful rollback to it
    the next rollback finds none, runs [rollout undo] instead and leaves the
    registry file alone. *)
Theorem rollback_token_single_use w1 w2 name h e :
  registry_of h !! name = Some e →
  let target := get e "rollback_version" in
  truthy target = true →
  succeeds w1 (set_image_proc cfg name "prod" (py_str target)) = true →
  succeeds w1 (rollout_status_proc name "prod") = true →
  let h1 := (rollback_app cfg w1 name h).2 in
  let h2 := (rollback_app cfg w2 name h1).2 in
  registry_file h2 = registry_file h1
  ∧ head (new_processes h1 h2) = Some (rollout_undo_proc name "prod")
  ∧ set_image_proc cfg name "prod" (py_str target) ∉ new_processes h1 h2.
Proof.
  intros He. cbv zeta. intros Ht Hs Hr.
  rewrite (rollback_app_run cfg w1), He. cbv zeta.
  rewrite Ht, Hs, Hr. cbn [negb andb snd].
  rewrite rollback_app_run.
  rewrite registry_of_saved, lookup_insert_eq. cbv zeta.
  assert (Hnull : get (rolled_back e) "rollback_version" = JNull)
    by apply get_insert_eq.
  rewrite Hnull. cbn [truthy]. rewrite andb_false_r.
  destruct (succeeds w2 (rollout_undo_proc name "prod")); cbn [negb snd].
  - split; [done|].
    match goal with
    | |- context [new_processes ?a (log_process ?q (log_process ?p ?a))] =>
        rewrite <- (set_registry_file_id (log_process q (log_process p a)));
        cbn [registry_file log_process set_registry_file];
        change (new_processes a _) with
          (new_processes a
             (set_registry_file (registry_file a)
                (log_process q (log_process p a))));
        rewrite new_processes_2
    end.
    split; [done|].
    intros Hin%list_elem_of_In. by destruct Hin as [Heq|[Heq|[]]].
  - split; [done|].
    match goal with
    | |- context [new_processes ?a (log_process ?p ?a)] =>
        change (new_processes a (log_process p a)) with
          (new_processes a
             (set_registry_file (registry_file a) (log_process p a)));
        rewrite new_processes_1
    end.
    split; [done|].
    intros Hin%list_elem_of_In. by destruct Hin as [Heq|[]].
Qed.

(** X9. Two promotions in a row without a build in between: the second one
    records the version that is already live as the rollback version, so the
    version that was live before the first promotion can no longer be rolled
    back to. *)
Theorem publish_twice_overwrites_rollback w1 w2 name h e :
  registry_of h !! name = Some e →
  let preview := get e "preview_version" in
  truthy preview = true →
  succeeds w1 (deploy_proc cfg name "prod" (py_str preview)) = true →
  succeeds w1 (rollout_status_proc name "prod") = true →
  succeeds w2 (deploy_proc cfg name "prod" (py_str preview)) = true →
  succeeds w2 (rollout_status_proc name "prod") = true →
  let h1 := (publish_app cfg w1 name h).2 in
  let h2 := (publish_app cfg w2 name h1).2 in
  registry_of h2 = <[name := promoted (promoted e)]> (registry_of h)
  ∧ get (promoted (promoted e)) "prod_version" = preview
  ∧ get (promoted (promoted e)) "rollback_version" = preview.
Proof.
  intros He. cbv zeta. intros Ht Hd Hr Hd2 Hr2.
  assert (Hpv : get (promoted e) "preview_version" = get e "preview_version").
  { unfold promoted. by rewrite !get_insert_ne. }
  assert (Hprod : get (promoted e) "prod_version" = get e "preview_version").
  { unfold promoted.
    rewrite (get_insert_ne _ "status" "prod_version") by done.
    rewrite (get_insert_ne _ "rollback_version" "prod_version") by done.
    apply get_insert_eq. }
  rewrite (publish_app_run cfg w1), He. cbv zeta.
  rewrite Ht, Hd, Hr. cbn [negb snd].
  rewrite publish_app_run.
  rewrite registry_of_saved, lookup_insert_eq. cbv zeta.
  rewrite Hpv, Ht, Hd2, Hr2. cbn [negb snd].
  rewrite !registry_of_saved, insert_insert_eq.
  split; [done|]. unfold promoted at 1 3.
  rewrite (get_insert_ne _ "status" "prod_version") by done.
  rewrite (get_insert_ne _ "rollback_version" "prod_version") by done.
  rewrite (get_insert_ne _ "status" "rollback_version") by done.
  by rewrite !get_insert_eq, Hpv, Hprod.
Qed.

End ControllerMore.

(** * Further invariants of the reachable registries *)

Section Chain.

Context (cfg : config).

Lemma chain_ok_created name template description now :
  chain_ok (created cfg name template description now).
Proof.
  assert (Hprod : get (created cfg name template description now)
                    "prod_version" = JNull) by reflexivity.
  assert (Hrb : get (created cfg name template description now)
                  "rollback_version" = JNull) by reflexivity.
  split; intros H; [by rewrite Hprod in H|by rewrite Hrb in H].
Qed.

Lemma chain_ok_built version e : chain_ok e → chain_ok (built version e).
Proof.
  intros [Hp Hr]. unfold chain_ok, built.
  rewrite (get_insert_ne _ "status" "preview_version") by done.
  rewrite get_insert_eq.
  rewrite !(get_insert_ne _ "status"), !(get_insert_ne _ "preview_version")
    by done.
  split; [done|exact Hr].
Qed.

Lemma chain_ok_promoted e :
  truthy (get e "preview_version") = true → chain_ok (promoted e).
Proof.
  intros Ht%truthy_not_null. unfold chain_ok, promoted.
  rewrite !(get_insert_ne _ "status") by done.
  rewrite (get_insert_ne _ "rollback_version" "preview_version") by done.
  rewrite (get_insert_ne _ "rollback_version" "prod_version") by done.
  rewrite (get_insert_ne _ "prod_version" "preview_version") by done.
  rewrite !get_insert_eq. done.
Qed.

Lemma chain_ok_rolled_back e :
  truthy (get e "rollback_version") = true →
  chain_ok e → chain_ok (rolled_back e).
Proof.
  intros Ht%truthy_not_null [Hp Hr]. unfold chain_ok, rolled_back.
  rewrite (get_insert_ne _ "rollback_version" "preview_version") by done.
  rewrite (get_insert_ne _ "rollback_version" "prod_version") by done.
  rewrite (get_insert_ne _ "prod_version" "preview_version") by done.
  rewrite !get_insert_eq. split; [|done]. intros _. auto.
Qed.

Lemma registry_step_chain_ok r r' :
  registry_step cfg r r' →
  (∀ name e, r !! name = Some e → chain_ok e) →
  ∀ name e, r' !! name = Some e → chain_ok e.
Proof.
  intros Hstep Hr name e.
  destruct Hstep as [|n t d now Hn|n now e0 Hn|n e0 Hn Ht|n e0 Hn Ht|n].
  - apply Hr.
  - rewrite lookup_insert. case_decide as Heq; [|apply Hr].
    intros [= <-]. apply chain_ok_created.
  - rewrite lookup_insert. case_decide as Heq; [|apply Hr].
    intros [= <-]. eapply chain_ok_built, Hr, Hn.
  - rewrite lookup_insert. case_decide as Heq; [|apply Hr].
    intros [= <-]. by apply chain_ok_promoted.
  - rewrite lookup_insert. case_decide as Heq; [|apply Hr].
    intros [= <-]. eapply chain_ok_rolled_back; [done|]. eapply Hr, Hn.
  - rewrite lookup_delete. case_decide as Heq; [done|apply Hr].
Qed.

(** X10. In every reachable registry an entry's production version is set only
    if its preview version is, and its rollback version only if its production
    version is. *)
Theorem reachable_versions_in_order h name e :
  reachable cfg h →
  registry_of h !! name = Some e →
  (get e "prod_version" ≠ JNull → get e "preview_version" ≠ JNull)
  ∧ (get e "rollback_version" ≠ JNull → get e "prod_version" ≠ JNull).
Proof.
  intros Hreach. revert name e.
  induction Hreach as [h Hnone|h w o Hreach IH].
  - intros name e. unfold registry_of. by rewrite Hnone.
  - eapply registry_step_chain_ok; [apply run_op_registry|exact IH].
Qed.

(** X11. In every reachable registry each version field holds [None] or a
    non-empty string, and an entry whose status is [created] has neither a
    production nor a rollback version. *)
Theorem reachable_versions_well_formed h name e :
  reachable cfg h →
  registry_of h !! name = Some e →
  version_ok (get e "preview_version")
  ∧ version_ok (get e "prod_version")
  ∧ version_ok (get e "rollback_version")
  ∧ (get e "status" = JStr "created" →
     get e "prod_version" = JNull ∧ get e "rollback_version" = JNull).
Proof.
  intros Hreach He.
  destruct (reachable_entry_ok cfg h Hreach name e He)
    as [(Hpv & Hprod & Hrb) Hst].
  repeat split; try done.
  - destruct (decide (get e "prod_version" = JNull)) as [|Hne]; [done|].
    destruct Hst as [Hs|Hs]; [by left| |]; rewrite Hs in H; discriminate.
  - destruct (decide (get e "rollback_version" = JNull)) as [|Hne]; [done|].
    destruct Hst as [Hs|Hs]; [by right| |]; rewrite Hs in H; discriminate.
Qed.

End Chain.

(** * Creation and teardown *)

Section Creation.

Context (cfg : config) (w : world).

Lemma kubectl_ok args inp check h :
  succeeds w (kubectl_proc args inp) = true →
  _kubectl w args inp check h
  = (inr (w (kubectl_proc args inp)), log_process (kubectl_proc args inp) h).
Proof. intros Hok. rewrite kubectl_run, Hok. by rewrite andb_false_r. Qed.

Lemma ret_run {A} (a : A) (h : host) : (mret a : M A) h = (inr a, h).
Proof. reflexivity. Qed.

Lemma valid_name_passes name :
  valid_name name = true →
  negb (isidentifier name)
  && negb (forallb (λ c, isalnum c || (code c =? 45)%nat)
             (list_ascii_of_string name)) = false.
Proof.
  unfold valid_name. intros [->| ->]%orb_true_iff; [done|].
  by rewrite andb_false_r.
Qed.

(** X12. [create_app] turns away an invalid name (for a name of ASCII
    characters: one that, stripped, lower-cased and with hyphens for
    spaces, is neither an identifier nor made of letters, digits and
    hyphens), an unknown template and a name already registered, with
    status 400, 400 and 409, before running any process and without
    changing the host. *)
Theorem create_app_rejects app_name template description now h :
  let name := normalised app_name in
  (is_ascii app_name = true → valid_name name = false →
     create_app cfg w app_name template description now h
     = (inl (HTTPException 400 "Invalid app name"), h))
  ∧ (valid_name name = true → template ∉ VALID_TEMPLATES →
       create_app cfg w app_name template description now h
       = (inl (HTTPException 400 "Invalid template"), h))
  ∧ (valid_name name = true → template ∈ VALID_TEMPLATES →
     is_Some (registry_of h !! name) →
       create_app cfg w app_name template description now h
       = (inl (HTTPException 409 ("App '" +:+ name +:+ "' already exists")),
          h)).
Proof.
  cbv zeta. unfold create_app. cbv zeta. fold (normalised app_name).
  split; [|split].
  - unfold valid_name. intros _ [-> ->]%orb_false_iff. done.
  - intros Hv Ht. rewrite (valid_name_passes _ Hv).
    by rewrite bool_decide_eq_false_2.
  - intros Hv Ht Hin. rewrite (valid_name_passes _ Hv).
    rewrite (bool_decide_eq_true_2 _ Ht). cbn [negb].
    rewrite bind_run, load_registry_run.
    by rewrite (bool_decide_eq_true_2 _ Hin).
Qed.

(** X13. When the name is valid and free, the template is known and present
    with something to commit, and every external command succeeds,
    [create_app] redirects to the application's page, registers the entry with
    no versions and status [created], and leaves a scaffolded work tree. *)
Theorem create_app_registers app_name template description now h template_dir :
  let name := normalised app_name in
  valid_name name = true →
  template ∈ VALID_TEMPLATES →
  registry_of h !! name = None →
  template_dirs h !! template = Some template_dir →
  stage template_dir ≠ ∅ →
  (∀ p, succeeds w p = true) →
  ∃ h',
    create_app cfg w app_name template description now h
    = (inr (RedirectResponse ("/app/" +:+ name) 303), h')
    ∧ registry_of h'
      = <[name := created cfg name template description now]> (registry_of h)
    ∧ workspaces h' !! workspace_path cfg name
      = Some (scaffolded name template template_dir)
    ∧ get (created cfg name template description now) "status"
      = JStr "created"
    ∧ get (created cfg name template description now) "preview_version"
      = JNull
    ∧ get (created cfg name template description now) "prod_version" = JNull
    ∧ get (created cfg name template description now) "rollback_version"
      = JNull.
Proof.
  cbv zeta. intros Hv Ht Hnone Htd Hstage Hok.
  unfold create_app. cbv zeta. fold (normalised app_name).
  set (name := normalised app_name) in *.
  rewrite (valid_name_passes _ Hv), (bool_decide_eq_true_2 _ Ht).
  cbn [negb]. rewrite bind_run, load_registry_run.
  rewrite bool_decide_eq_false_2 by (rewrite Hnone; by intros [? ?]).
  unfold create_namespace, grant_builder_access, create_env_configmap.
  cbv zeta.
  repeat (first [rewrite bind_run | rewrite ret_run
                 | rewrite kubectl_ok by apply Hok]; cbv beta iota).
  unfold init_git_repo at 1.
  rewrite bind_run. unfold git_local at 1. cbn [andb negb Z.eqb].
  cbv beta iota. rewrite ret_run. cbv beta iota. rewrite bind_run.
  match goal with
  | |- context [scaffold_app cfg w name template ?h0] =>
      destruct (scaffold_app_run cfg w name template h0 template_dir Htd)
        as (h1 & Hrun & Hws & Hreg)
  end.
  rewrite Hrun. unfold scaffold_outcome.
  rewrite bool_decide_eq_false_2 by done. rewrite Hok.
  rewrite bind_run. unfold _save_registry at 1, modify_host at 1.
  eexists. split; [reflexivity|].
  split; [reflexivity|]. split.
  - cbn [set_registry_file workspaces]. rewrite Hws. apply lookup_insert_eq.
  - repeat split; reflexivity.
Qed.

End Creation.

Section Teardown.

Context (cfg : config) (w : world).

Lemma raises_clean_bind P {A B} (m : M A) (k : A → M B) :
  runs_only P m → (∀ a, raises_clean (k a)) → raises_clean (m ≫= k).
Proof.
  intros Hm Hk h e h'. rewrite bind_run.
  destruct (Hm h) as [Hreg _].
  destruct (m h) as [[e1|a] h1]; cbn [snd] in Hreg.
  - by intros [= _ <-].
  - intros Hrun. rewrite <- Hreg. by eapply Hk.
Qed.

(** X14. [create_app] records nothing when it raises: whatever step failed,
    the registry file is what it was. *)
Theorem create_app_failure_records_nothing
    app_name template description now h e h' :
  create_app cfg w app_name template description now h = (inl e, h') →
  registry_file h' = registry_file h.
Proof.
  unfold create_app. cbv zeta. fold (normalised app_name).
  destruct (negb (isidentifier _) && _); [by intros [= _ <-]|].
  destruct (negb (bool_decide _)); [by intros [= _ <-]|].
  rewrite bind_run, load_registry_run.
  case_bool_decide as Hfree; [by intros [= _ <-]|]. clear Hfree.
  generalize (registry_of h) as r. intros r. revert h e h'.
  eapply raises_clean_bind; [apply runs_only_create_namespace|intros _].
  eapply raises_clean_bind; [apply runs_only_grant_builder_access|intros _].
  eapply raises_clean_bind; [apply runs_only_create_env_configmap|intros _].
  eapply raises_clean_bind; [apply runs_only_init_git_repo|intros _].
  eapply raises_clean_bind; [apply runs_only_scaffold_app|intros _].
  by intros h e h'.
Qed.

(** X15. [delete_app] is all or nothing on the host: when the namespace is
    deleted, the registry entry, the work tree and the bare repository are all
    removed; when kubectl fails, all three are kept. *)
Theorem delete_app_all_or_nothing name h e :
  registry_of h !! name = Some e →
  let ns := kubectl_proc ["delete"; "namespace"; "app-" +:+ name;
                          "--ignore-not-found=true"] None in
  ∃ h',
    new_processes h h' = [ns]
    ∧ if succeeds w ns
      then delete_app cfg w name h
           = (inr (JSONResponse [("ok", JBool true)]), h')
           ∧ registry_of h' = delete name (registry_of h)
           ∧ workspaces h' !! workspace_path cfg name = None
           ∧ bare_repos h' !! repo_path cfg name = None
      else delete_app cfg w name h
           = (inl (kubectl_failed ["delete"; "namespace"; "app-" +:+ name;
                                   "--ignore-not-found=true"] (w ns)), h')
           ∧ registry_file h' = registry_file h
           ∧ workspaces h' = workspaces h
           ∧ bare_repos h' = bare_repos h.
Proof.
  intros He. cbv zeta. unfold delete_app.
  rewrite bind_run, get_app_run, He. cbv beta iota.
  rewrite bind_run. unfold delete_namespace.
  rewrite bind_run, kubectl_run. cbn [andb].
  destruct (succeeds w _) eqn:Hok; cbn [negb]; cbv beta iota.
  - rewrite ret_run. cbv beta iota.
    rewrite bind_run. unfold delete_git_repo at 1, modify_host at 1.
    cbv beta iota.
    rewrite bind_run, load_registry_run. cbv beta iota.
    change (registry_of (set_workspaces _ (set_bare_repos _ (log_process _ h))))
      with (registry_of h).
    rewrite He, bind_run. unfold _save_registry at 1, modify_host at 1.
    cbv beta iota. rewrite ret_run.
    eexists. split; [|split; [reflexivity|]].
    + unfold new_processes. cbn. by rewrite drop_app_length.
    + split; [reflexivity|]. cbn. split; apply lookup_delete_eq.
  - eexists. split; [|split; [reflexivity|done]].
    unfold new_processes. cbn. by rewrite drop_app_length.
Qed.

End Teardown.

(** * Further properties of the workspace synchroniser *)

Section WorkspaceMore.

Context (cfg : config) (w : world).


End WorkspaceMore.

Section WorkspaceTheorems.

Context (cfg : config).







End WorkspaceTheorems.

Section Sync.

Context (cfg : config).

(** [checkout_workspace], in full. *)
Lemma checkout_workspace_run w app_name h :
  ∃ h',
    checkout_workspace cfg w app_name h
    = (checkout_outcome cfg w app_name h, h')
    ∧ bare_repos h' = bare_repos h
    ∧ ∀ c cs,
        succeeds w (fetch_proc cfg app_name) = true →
        bare_repos h !! repo_path cfg app_name = Some (c :: cs) →
        workspaces h' !! workspace_path cfg app_name
        = Some (synchronised c cs (worktree_at cfg app_name h)).
Proof.
  unfold checkout_workspace. cbv zeta. rewrite bind_run. cbn [get_host].
  set (ws := workspace_path cfg app_name).
  set (repo := repo_path cfg app_name).
  assert (Hready : ∃ h0,
    (if bool_decide (is_Some (workspaces h !! ws)) then mret ()
     else mkdir ws ≫= λ _, git_init ws ≫= λ _,
          git_remote_add ws repo ≫= λ _, mret ()) h = (inr tt, h0)
    ∧ workspaces h0 !! ws = Some (worktree_at cfg app_name h)
    ∧ bare_repos h0 = bare_repos h).
  { unfold worktree_at. fold ws. case_bool_decide as Hex.
    - destruct Hex as [wt Hwt]. exists h. by rewrite Hwt.
    - assert (Hnone : workspaces h !! ws = None).
      { by destruct (workspaces h !! ws); [destruct Hex|]. }
      rewrite Hnone. cbn [default].
      rewrite bind_run. unfold mkdir at 1, modify_host at 1. cbv beta iota.
      rewrite bind_run. unfold git_init.
      erewrite git_local_run by apply lookup_insert_eq.
      cbn [fst snd andb negb Z.eqb]. cbv iota. host_norm.
      rewrite bind_run. unfold git_remote_add.
      erewrite git_local_run by apply lookup_insert_eq.
      cbn [fst snd andb negb Z.eqb]. cbv iota. host_norm. rewrite ret_run.
      eexists. split; [reflexivity|]. cbn [workspaces bare_repos].
      split; [apply lookup_insert_eq|done]. }
  destruct Hready as (h0 & Hrun0 & Hws0 & Hbare0).
  rewrite bind_run.
  match goal with
  | |- context [match ?m h with _ => _ end] =>
      change (m h) with
        ((if bool_decide (is_Some (workspaces h !! ws)) then mret ()
          else mkdir ws ≫= λ _, git_init ws ≫= λ _,
               git_remote_add ws repo ≫= λ _, mret ()) h)
  end.
  rewrite Hrun0. cbv beta iota.
  rewrite bind_run. unfold git_fetch, git_remote.
  rewrite bind_run. unfold subprocess_run. cbv beta iota.
  unfold checkout_outcome, succeeds, fetch_proc. fold ws. fold repo.
  destruct (returncode _ =? 0) eqn:Hfetch.
  - rewrite bind_run. unfold modify_host at 1. cbv beta iota.
    rewrite ret_run. cbv beta iota.
    rewrite bind_run. unfold git_reset_hard, git_local. host_norm.
    rewrite Hbare0.
    destruct (bare_repos h !! repo) as [[|c cs]|] eqn:Hbare.
    + cbn [andb negb Z.eqb]. cbv iota.
      eexists. split; [reflexivity|]. split; [done|]. by intros.
    + unfold in_worktree. host_norm. rewrite Hws0. host_norm.
      cbn [andb negb Z.eqb]. cbv iota. rewrite ret_run.
      eexists. split; [reflexivity|]. cbn [bare_repos workspaces].
      split; [done|]. intros c' cs' _ [= <- <-]. apply lookup_insert_eq.
    + cbn [andb negb Z.eqb]. cbv iota.
      eexists. split; [reflexivity|]. split; [done|]. by intros.
  - cbv iota. unfold raise.
    eexists. split; [reflexivity|]. cbn [bare_repos].
    split; [done|]. by intros.
Qed.



(** X22. Before anything was pushed, [checkout_workspace] fails: with a bare
    repository that has no commit the hard reset exits with 128 and
    [CalledProcessError] is raised, so a build cannot get past the
    synchronisation. *)
Theorem checkout_workspace_without_history w app_name now h e :
  registry_of h !! app_name = Some e →
  succeeds w (fetch_proc cfg app_name) = true →
  default [] (bare_repos h !! repo_path cfg app_name) = [] →
  (checkout_workspace cfg w app_name h).1
  = inl (CalledProcessError 128 ("git" :: reset_args cfg app_name))
  ∧ (build_app cfg w app_name now h).2
    = [ErrorEvent (str_exn (CalledProcessError 128
                              ("git" :: reset_args cfg app_name)))].
Proof.
  intros He Hfetch Hbare.
  destruct (checkout_workspace_run w app_name h) as (h' & Hrun & _).
  assert (Hout : checkout_outcome cfg w app_name h
                 = inl (CalledProcessError 128
                          ("git" :: reset_args cfg app_name))).
  { unfold checkout_outcome. rewrite Hfetch.
    by destruct (bare_repos h !! repo_path cfg app_name) as [[|c cs]|]. }
  rewrite Hout in Hrun. rewrite Hrun. split; [done|].
  by destruct (build_app_sync_failure cfg w app_name now h e _ h' He Hrun)
    as [-> _].
Qed.


End Sync.

(** * The further properties on the concrete installation *)

Lemma run_outcome {A} (r : (exn + A) * host) a : r.1 = a → r = (a, r.2).
Proof. intros <-. by destruct r. Qed.

Lemma build_app_sync_failure_witness :
  let w := only_fails (fetch_proc demo_config "demo") in
  (build_app demo_config w "demo" one_hour_later demo_built).2
  = [ErrorEvent
       ("Command '['git', '-C', '/var/git/apps/demo-workspace', 'fetch', "
        +:+ "'origin']' returned non-zero exit status 1.")].
Proof.
  cbv zeta.
  set (w := only_fails (fetch_proc demo_config "demo")).
  assert (He : registry_of demo_built !! "demo"
               = Some (default ∅ (registry_of demo_built !! "demo")))
    by by_compute.
  assert (Hc : checkout_workspace demo_config w "demo" demo_built
               = (inl (CalledProcessError 1
                         (argv (fetch_proc demo_config "demo"))),
                  (checkout_workspace demo_config w "demo" demo_built).2))
    by (apply run_outcome; by_compute).
  destruct (build_app_sync_failure demo_config w "demo" one_hour_later
              demo_built _ _ _ He Hc) as [-> _].
  by_compute.
Defined.

Lemma build_app_push_failure_witness :
  let w := only_fails (docker_push_proc demo_config "demo" "20260101.010000") in
  last (build_app demo_config w "demo" one_hour_later demo_built).2
  = Some (ErrorEvent "docker push failed (exit 1)").
Proof.
  cbv zeta.
  set (w := only_fails (docker_push_proc demo_config "demo" "20260101.010000")).
  assert (He : registry_of demo_built !! "demo"
               = Some (default ∅ (registry_of demo_built !! "demo")))
    by by_compute.
  assert (Hc : checkout_workspace demo_config w "demo" demo_built
               = (inr tt, (checkout_workspace demo_config w "demo"
                             demo_built).2))
    by (apply run_outcome; by_compute).
  destruct (build_app_push_failure demo_config w "demo" one_hour_later
              demo_built _ _ He Hc) as [Hlast _];
    [by_compute|by_compute|].
  rewrite Hlast. by_compute.
Defined.

Lemma build_app_rollout_timeout_witness :
  let w := only_fails (rollout_status_proc "demo" "preview") in
  last (build_app demo_config w "demo" one_hour_later demo_built).2
  = Some (ErrorEvent "Rollout timed out")
  ∧ registry_file (build_app demo_config w "demo" one_hour_later
                     demo_built).1.2
    = registry_file demo_built.
Proof.
  cbv zeta.
  set (w := only_fails (rollout_status_proc "demo" "preview")).
  assert (He : registry_of demo_built !! "demo"
               = Some (default ∅ (registry_of demo_built !! "demo")))
    by by_compute.
  assert (Hc : checkout_workspace demo_config w "demo" demo_built
               = (inr tt, (checkout_workspace demo_config w "demo"
                             demo_built).2))
    by (apply run_outcome; by_compute).
  destruct (build_app_rollout_timeout demo_config w "demo" one_hour_later
              demo_built _ _ He Hc) as (Hlast & Hreg & _);
    [by_compute|by_compute|by_compute|by_compute|].
  split; [exact Hlast|exact Hreg].
Defined.

Lemma publish_app_apply_failure_witness :
  let deploy := deploy_proc demo_config "demo" "prod" "20260101.000000" in
  ∃ h', publish_app demo_config (only_fails deploy) "demo" demo_built
        = (inl (kubectl_failed ["apply"; "-f"; "-"] (exit_with 1)), h')
        ∧ new_processes demo_built h' = [deploy].
Proof.
  cbv zeta.
  assert (He : registry_of demo_built !! "demo"
               = Some (default ∅ (registry_of demo_built !! "demo")))
    by by_compute.
  destruct (publish_app_apply_failure demo_config
              (only_fails (deploy_proc demo_config "demo" "prod"
                             "20260101.000000"))
              "demo" demo_built _ He) as (h' & Hrun & Hnew & _);
    [by_compute|by_compute|].
  exists h'. split; [exact Hrun|exact Hnew].
Defined.

Lemma unknown_app_not_found_witness :
  publish_app demo_config all_succeed "ghost" demo_built
  = (inl (HTTPException 404 "App 'ghost' not found"), demo_built).
Proof.
  destruct (unknown_app_not_found demo_config all_succeed "ghost" new_year
              demo_built) as (_ & Hpublish & _);
    [by_compute|].
  exact Hpublish.
Defined.

Lemma publish_then_rollback_witness :
  let h1 := (publish_app demo_config all_succeed "demo" demo_rebuilt).2 in
  let h2 := (rollback_app demo_config all_succeed "demo" h1).2 in
  field demo_rebuilt "demo" "prod_version" = JStr "20260101.000000"
  ∧ field h1 "demo" "prod_version" = JStr "20260101.010000"
  ∧ field h2 "demo" "prod_version" = JStr "20260101.000000"
  ∧ field h2 "demo" "rollback_version" = JNull.
Proof.
  cbv zeta.
  assert (He : registry_of demo_rebuilt !! "demo"
               = Some (default ∅ (registry_of demo_rebuilt !! "demo")))
    by by_compute.
  destruct (publish_then_rollback demo_config all_succeed all_succeed "demo"
              demo_rebuilt _ He) as (Hreg & _);
    [by_compute|by_compute|by_compute|by_compute|by_compute|by_compute|].
  split; [by_compute|]. split; [by_compute|].
  unfold field. rewrite Hreg. split; by_compute.
Defined.

Lemma rollback_token_single_use_witness :
  let h1 := (rollback_app demo_config all_succeed "demo" demo_republished).2 in
  let h2 := (rollback_app demo_config all_succeed "demo" h1).2 in
  registry_file h2 = registry_file h1
  ∧ head (new_processes h1 h2) = Some (rollout_undo_proc "demo" "prod").
Proof.
  cbv zeta.
  assert (He : registry_of demo_republished !! "demo"
               = Some (default ∅ (registry_of demo_republished !! "demo")))
    by by_compute.
  destruct (rollback_token_single_use demo_config all_succeed all_succeed
              "demo" demo_republished _ He) as (Hreg & Hhead & _);
    [by_compute|by_compute|by_compute|].
  split; [exact Hreg|exact Hhead].
Defined.

Lemma publish_twice_overwrites_rollback_witness :
  let h1 := (publish_app demo_config all_succeed "demo" demo_rebuilt).2 in
  let h2 := (publish_app demo_config all_succeed "demo" h1).2 in
  field h1 "demo" "rollback_version" = JStr "20260101.000000"
  ∧ field h2 "demo" "rollback_version" = JStr "20260101.010000"
  ∧ field h2 "demo" "prod_version" = JStr "20260101.010000".
Proof.
  cbv zeta.
  assert (He : registry_of demo_rebuilt !! "demo"
               = Some (default ∅ (registry_of demo_rebuilt !! "demo")))
    by by_compute.
  destruct (publish_twice_overwrites_rollback demo_config all_succeed
              all_succeed "demo" demo_rebuilt _ He) as (Hreg & _);
    [by_compute|by_compute|by_compute|by_compute|by_compute|].
  split; [by_compute|].
  unfold field. rewrite Hreg. split; by_compute.
Defined.

Lemma reachable_versions_in_order_witness :
  get (default ∅ (registry_of demo_republished !! "demo")) "prod_version"
  ≠ JNull.
Proof.
  assert (He : registry_of demo_republished !! "demo"
               = Some (default ∅ (registry_of demo_republished !! "demo")))
    by by_compute.
  destruct (reachable_versions_in_order demo_config demo_republished "demo" _
              (proj2 (proj2 (proj2 (proj2 demo_hosts_reachable)))) He)
    as [_ Hrb].
  apply Hrb. by_compute.
Defined.

Lemma reachable_versions_well_formed_witness :
  version_ok
    (get (default ∅ (registry_of demo_republished !! "demo")) "prod_version").
Proof.
  assert (He : registry_of demo_republished !! "demo"
               = Some (default ∅ (registry_of demo_republished !! "demo")))
    by by_compute.
  destruct (reachable_versions_well_formed demo_config demo_republished
              "demo" _
              (proj2 (proj2 (proj2 (proj2 demo_hosts_reachable)))) He)
    as (_ & Hprod & _).
  exact Hprod.
Defined.

Lemma create_app_rejects_witness :
  create_app demo_config all_succeed "bad name!" "simple-api" "" new_year
    demo_created
  = (inl (HTTPException 400 "Invalid app name"), demo_created)
  ∧ create_app demo_config all_succeed "other" "django" "" new_year
      demo_created
    = (inl (HTTPException 400 "Invalid template"), demo_created)
  ∧ create_app demo_config all_succeed " Demo " "simple-api" "" new_year
      demo_created
    = (inl (HTTPException 409 "App 'demo' already exists"), demo_created).
Proof.
  split; [|split].
  - destruct (create_app_rejects demo_config all_succeed "bad name!"
                "simple-api" "" new_year demo_created) as (Hname & _).
    apply Hname; by_compute.
  - destruct (create_app_rejects demo_config all_succeed "other" "django" ""
                new_year demo_created) as (_ & Htemplate & _).
    apply Htemplate; by_compute.
  - destruct (create_app_rejects demo_config all_succeed " Demo "
                "simple-api" "" new_year demo_created) as (_ & _ & Hexists).
    apply Hexists; by_compute.
Defined.

Lemma create_app_registers_witness :
  ∃ h', create_app demo_config all_succeed "My App" "simple-api" "a demo"
          new_year fresh_host
        = (inr (RedirectResponse "/app/my-app" 303), h')
        ∧ field h' "my-app" "status" = JStr "created".
Proof.
  destruct (create_app_registers demo_config all_succeed "My App" "simple-api"
              "a demo" new_year fresh_host {[ "app.py" := "print(1)" ]})
    as (h' & Hrun & Hreg & _).
  - by_compute.
  - by_compute.
  - by_compute.
  - by_compute.
  - by_compute.
  - intros p. reflexivity.
  - exists h'. split; [exact Hrun|].
    unfold field. rewrite Hreg. by_compute.
Defined.

Lemma create_app_failure_records_nothing_witness :
  let w := only_fails (kubectl_proc ["apply"; "-f"; "-"]
                         (Some (rb_yaml "other"))) in
  registry_file
    (create_app demo_config w "other" "simple-api" "" new_year demo_created).2
  = registry_file demo_created.
Proof.
  cbv zeta.
  apply (create_app_failure_records_nothing demo_config
           (only_fails (kubectl_proc ["apply"; "-f"; "-"]
                          (Some (rb_yaml "other"))))
           "other" "simple-api" "" new_year demo_created
           (RuntimeError
              ("kubectl apply -f - failed:" +:+ nl +:+ "refused"))).
  apply run_outcome. by_compute.
Defined.

Lemma delete_app_all_or_nothing_witness :
  ∃ h', delete_app demo_config all_succeed "demo" demo_published
        = (inr (JSONResponse [("ok", JBool true)]), h')
        ∧ registry_of h' = delete "demo" (registry_of demo_published)
        ∧ workspaces h' !! workspace_path demo_config "demo" = None.
Proof.
  assert (He : registry_of demo_published !! "demo"
               = Some (default ∅ (registry_of demo_published !! "demo")))
    by by_compute.
  destruct (delete_app_all_or_nothing demo_config all_succeed "demo"
              demo_published _ He) as (h' & _ & Hcase).
  change (succeeds all_succeed _) with true in Hcase.
  destruct Hcase as (Hrun & Hreg & Hws & _).
  exists h'. split; [exact Hrun|]. split; [exact Hreg|exact Hws].
Defined.





Lemma checkout_workspace_without_history_witness :
  let h := set_registry_file (registry_file demo_created) stale_host in
  (build_app demo_config all_succeed "demo" new_year h).2
  = [ErrorEvent
       ("Command '['git', '-C', '/var/git/apps/demo-workspace', 'reset', "
        +:+ "'--hard', 'origin/main']' returned non-zero exit status 128.")].
Proof.
  cbv zeta.
  set (h := set_registry_file (registry_file demo_created) stale_host).
  destruct (checkout_workspace_without_history demo_config all_succeed "demo"
              new_year h (default ∅ (registry_of h !! "demo")))
    as [_ Hstream];
    [by_compute|by_compute|by_compute|].
  rewrite Hstream. by_compute.
Defined.

